(** * csfile: an interactive session over one pandas table

    Shallow embedding of [script.py].  The script is menu-driven glue
    around a pandas [DataFrame], Tk dialogs, the [logging] module and a
    few chart calls.  The embedding keeps that shape:

    - the table is a record of column names, column types and labelled
      rows;
    - every dialog answer is read from a script of answers held in the
      [World]; every log line, message box, console print and chart
      request is appended to the world's event trace;
    - the pandas calls the script makes ([dropna], [fillna], boolean
      indexing, [to_csv], [read_csv]) are written out as functions on
      the table, with the defaults the script leaves in force; where
      pandas 1, 2 and 3 differ, the function takes the version, which
      the world records, because the repository pins none;
    - whether a report or a chart call raises is the library's matter:
      the world answers it, and the handler takes the [except] branch
      when it does. *)

From Stdlib Require Import List String Ascii ZArith Bool Arith Lia.
From Stdlib Require Import DecimalString DecimalPos DecimalZ.
Import ListNotations.
Open Scope string_scope.

(** ** Data model *)

(** One cell of a table: a number, a boolean, a text, or the reserved
    marker [CMissing] (NaN) of an absent value.  A number is an integer
    value, held as an integer in an [Int64] column and as a float
    anywhere else; numbers with a fractional part are outside this
    model. *)
Inductive cell : Type :=
| CNum (z : Z)
| CBool (b : bool)
| CText (s : string)
| CMissing.

(** The type pandas keeps for each column.  [Object] stands for both
    [object] and the [str] type of pandas 3. *)
Inductive dtype : Type := Int64 | Float64 | Boolean | Object.

(** The pandas release the script runs on. *)
Inductive version : Type := P1 | P2 | P3.

(** A row keeps the index label pandas gave it when the file was read. *)
Record row : Type := mkRow { label : nat; cells : list cell }.

Record DataFrame : Type := mkDF {
  columns : list string;
  dtypes : list dtype;
  rows : list row
}.

Definition cell_eqb (a b : cell) : bool :=
  match a, b with
  | CNum x, CNum y => Z.eqb x y
  | CBool x, CBool y => Bool.eqb x y
  | CText x, CText y => String.eqb x y
  | CMissing, CMissing => true
  | _, _ => false
  end.

Definition isna (c : cell) : bool :=
  match c with CMissing => true | _ => false end.

Definition row_has_na (r : row) : bool := existsb isna (cells r).

Definition has_na (df : DataFrame) : bool := existsb row_has_na (rows df).

Definition n_rows (df : DataFrame) : nat := List.length (rows df).
Definition n_cols (df : DataFrame) : nat := List.length (columns df).

(** Shape invariant of a frame: every row has one cell per column. *)
Definition rectangular (df : DataFrame) : Prop :=
  Forall (fun r => List.length (cells r) = n_cols df) (rows df).

(** ** The pandas calls of the script *)

Module Pandas.

(** [column in df.columns]; a cancelled dialog hands in [None], which is
    no column label. *)
Definition contains (cols : list string) (column : option string) : bool :=
  match column with
  | Some c => existsb (String.eqb c) cols
  | None => false
  end.

Fixpoint get_loc (c : string) (cols : list string) : option nat :=
  match cols with
  | [] => None
  | x :: rest =>
      if String.eqb c x then Some 0
      else match get_loc c rest with
           | Some i => Some (S i)
           | None => None
           end
  end.

(** The value a row holds at position [i]. *)
Definition at_pos (i : nat) (r : row) : cell := nth i (cells r) CMissing.

(** [df[column]]: the series of one column, [KeyError] when absent. *)
Definition getitem (df : DataFrame) (column : string) : option (list cell) :=
  match get_loc column (columns df) with
  | Some i => Some (map (at_pos i) (rows df))
  | None => None
  end.

(** One cell compared with the dialog's answer.  The answer is a Python
    [str] or [None]; only a text cell holding the same characters
    compares equal, numbers and booleans never equal a [str], and the
    missing marker equals nothing. *)
Definition eq_scalar (value : option string) (c : cell) : bool :=
  match c, value with
  | CText s, Some v => String.eqb s v
  | _, _ => false
  end.

(** [series == value]: the boolean mask, one entry per row. *)
Definition series_eq (s : list cell) (value : option string) : list bool :=
  map (eq_scalar value) s.

(** [df[mask]]: the rows whose mask entry is [True], in order, with
    their labels; the columns and their types are carried over. *)
Fixpoint select (mask : list bool) (rs : list row) : list row :=
  match mask, rs with
  | b :: mask', r :: rs' => if b then r :: select mask' rs' else select mask' rs'
  | _, _ => []
  end.

Definition getitem_mask (df : DataFrame) (mask : list bool) : DataFrame :=
  mkDF (columns df) (dtypes df) (select mask (rows df)).

(** [df.dropna()] with its defaults [axis=0, how='any']. *)
Definition dropna (df : DataFrame) : DataFrame :=
  mkDF (columns df) (dtypes df)
    (filter (fun r => negb (row_has_na r)) (rows df)).

Definition fill_cell (v : string) (c : cell) : cell :=
  match c with CMissing => CText v | _ => c end.

Definition fill_row (v : string) (r : row) : row :=
  mkRow (label r) (map (fill_cell v) (cells r)).

(** Does column [j] hold a missing value? *)
Definition column_has_na (rs : list row) (j : nat) : bool :=
  existsb (fun r => match nth_error (cells r) j with
                    | Some c => isna c
                    | None => false
                    end) rs.

Definition is_float (t : dtype) : bool :=
  match t with Float64 => true | _ => false end.

(** Positions paired with the column types. *)
Fixpoint indexed (j : nat) (ts : list dtype) : list (nat * dtype) :=
  match ts with
  | [] => []
  | t :: rest => (j, t) :: indexed (S j) rest
  end.

(** Some [float64] column holds a missing value. *)
Definition float_missing (df : DataFrame) : bool :=
  existsb (fun p => is_float (snd p) && column_has_na (rows df) (fst p))
    (indexed 0 (dtypes df)).

(** A [float64] column that takes in a text becomes [object]. *)
Definition widen (rs : list row) (p : nat * dtype) : dtype :=
  if is_float (snd p) && column_has_na rs (fst p) then Object else snd p.

Definition filled (df : DataFrame) (v : string) : DataFrame :=
  mkDF (columns df) (map (widen (rows df)) (indexed 0 (dtypes df)))
    (map (fill_row v) (rows df)).

(** [df.fillna(value, inplace=True)].

    - With [value=None], pandas 1 and 2 raise [ValueError]; pandas 3
      returns and leaves every missing value missing.
    - With a [str], pandas 1 and 2 write it into every missing cell of
      every column, a [float64] column being widened to [object].
      Pandas 3 refuses to put a text into a [float64] column: when such
      a column holds a missing value the call raises [TypeError], and
      the frame is taken as it was (columns of other types that pandas
      had reached and filled before it raised are left out of this
      model); otherwise it fills as before. *)
Definition fillna (ver : version) (df : DataFrame) (value : option string)
  : string + DataFrame :=
  match value, ver with
  | None, P3 => inr df
  | None, _ => inl "Must specify a fill 'value' or 'method'."
  | Some v, P3 =>
      if float_missing df
      then inl ("Invalid value '" ++ v ++ "' for dtype 'float64'")
      else inr (filled df v)
  | Some v, _ => inr (filled df v)
  end.

End Pandas.

(** ** The world the script runs in *)

Inductive level : Type := INFO | WARNING | ERROR.
Inductive box : Type := BoxInfo | BoxWarning | BoxError.
Inductive chart : Type := Simple | Pairplot | Histogram | Heatmap.

(** The library calls the script wraps in a [try] of their own. *)
Inductive call : Type :=
| CallInfo
| CallDescribe
| CallPlot (c : chart).

(** What the user can observe, in the order it happens. *)
Inductive event : Type :=
| Asked (title prompt : string)
| AskedOpenFile
| AskedSaveFile
| Log (l : level) (msg : string)
| MessageBox (b : box) (title msg : string)
| PrintLine (s : string)
| PrintInfo (df : DataFrame)
| PrintSummary (df : DataFrame)
| PrintFrame (df : DataFrame)
| Show (c : chart) (df : DataFrame).

(** A delimited file as its records of fields: the header record first.
    Quoting and line ends are the csv module's business and are not
    modelled; a record is the list of fields it carries. *)
Definition grid : Type := list (list string).

(** [inputs]: the answers the user will give, one per dialog, [None]
    for a dismissed dialog.  [files]: the disk, latest write first.
    [locked]: paths that cannot be written.  [pandas]: the release
    installed.  [raises]: whether a report or chart call on a frame
    raises, and with which message; [None] when it returns. *)
Record World : Type := mkWorld {
  inputs : list (option string);
  events : list event;
  files : list (string * grid);
  locked : list string;
  pandas : version;
  raises : call -> DataFrame -> option string
}.

(** A run either returns, or sits at a dialog the script of answers has
    no entry for, or exhausts the iteration budget of a [while True]. *)
Inductive outcome (A : Type) : Type :=
| Done (a : A) (w : World)
| Blocked (w : World)
| OutOfFuel.
Arguments Done {A} a w.
Arguments Blocked {A} w.
Arguments OutOfFuel {A}.

Definition M (A : Type) : Type := World -> outcome A.

Definition ret {A} (a : A) : M A := fun w => Done a w.

Definition bind {A B} (m : M A) (k : A -> M B) : M B :=
  fun w =>
    match m w with
    | Done a w' => k a w'
    | Blocked w' => Blocked w'
    | OutOfFuel => OutOfFuel
    end.

Declare Scope io_scope.
Delimit Scope io_scope with io.
Notation "x <- m ;; k" := (bind m (fun x => k))
  (at level 61, m at next level, right associativity) : io_scope.
Notation "m ;; k" := (bind m (fun _ => k))
  (at level 61, right associativity) : io_scope.
Open Scope io_scope.

Definition emit (e : event) : M unit :=
  fun w =>
    Done tt
      (mkWorld (inputs w) (events w ++ [e]) (files w) (locked w)
         (pandas w) (raises w)).

Definition next_answer : M (option string) :=
  fun w =>
    match inputs w with
    | [] => Blocked w
    | a :: rest =>
        Done a
          (mkWorld rest (events w) (files w) (locked w) (pandas w) (raises w))
    end.

(** [simpledialog.askstring]: the text entered, [None] on cancel. *)
Definition askstring (title prompt : string) : M (option string) :=
  emit (Asked title prompt) ;; next_answer.

(** The file dialogs hand back the empty string when dismissed. *)
Definition path_of (a : option string) : string :=
  match a with Some p => p | None => "" end.

Definition askopenfilename : M string :=
  emit AskedOpenFile ;;
  a <- next_answer ;;
  ret (path_of a).

Definition asksaveasfilename : M string :=
  emit AskedSaveFile ;;
  a <- next_answer ;;
  ret (path_of a).

Definition logging (l : level) (msg : string) : M unit := emit (Log l msg).
Definition messagebox (b : box) (title msg : string) : M unit :=
  emit (MessageBox b title msg).

(** The pandas release in use. *)
Definition pandas_version : M version := fun w => Done (pandas w) w.

(** A report or chart call inside its [try]: [None] when it returns,
    the exception text when it raises. *)
Definition library_call (c : call) (df : DataFrame) : M (option string) :=
  fun w => Done (raises w c df) w.

(** Python's [==] between a dialog answer and a string literal. *)
Definition is_token (a : option string) (tok : string) : bool :=
  match a with Some s => String.eqb s tok | None => false end.

(** [str(x)] of a dialog answer inside an f-string. *)
Definition fmt (a : option string) : string :=
  match a with Some s => s | None => "None" end.

(** ** The action handlers *)

(** The frame is a Python object mutated in place; the session holds the
    only reference to it, so each handler returns the frame as it stands
    when the handler is left. *)

Definition handle_missing_data (df : DataFrame) : M DataFrame :=
  action <- askstring "Missing Data"
              "Choose action for missing data (drop, fill, cancel):" ;;
  if is_token action "drop" then
    logging INFO "Missing data rows dropped." ;;
    messagebox BoxInfo "Success" "Rows with missing data were dropped." ;;
    ret (Pandas.dropna df)
  else if is_token action "fill" then
    fill_value <- askstring "Fill Missing Data"
                    "Enter value to fill missing data:" ;;
    ver <- pandas_version ;;
    match Pandas.fillna ver df fill_value with
    | inr df' =>
        logging INFO ("Missing data filled with " ++ fmt fill_value ++ ".") ;;
        messagebox BoxInfo "Success"
          ("Missing data filled with '" ++ fmt fill_value ++ "'.") ;;
        ret df'
    | inl e =>
        logging ERROR ("Error filling missing data: " ++ e) ;;
        messagebox BoxError "Error" ("Could not fill missing data: " ++ e) ;;
        ret df
    end
  else if is_token action "cancel" then
    logging INFO "Missing data handling canceled." ;;
    ret df
  else
    logging WARNING "Invalid input for missing data handling." ;;
    ret df.

Definition filter_data (df : DataFrame) : M DataFrame :=
  column <- askstring "Filter" "Enter column name to filter:" ;;
  if negb (Pandas.contains (columns df) column) then
    messagebox BoxError "Error" "Column not found." ;;
    ret df
  else
    value <- askstring "Filter"
               ("Enter value to filter " ++ fmt column ++ ":") ;;
    match Pandas.getitem df (fmt column) with
    | Some series =>
        let filtered_df :=
          Pandas.getitem_mask df (Pandas.series_eq series value) in
        logging INFO
          ("Data filtered on " ++ fmt column ++ " = " ++ fmt value ++ ".") ;;
        emit (PrintFrame filtered_df) ;;
        ret filtered_df
    | None =>
        logging ERROR ("Error filtering data: " ++ fmt column) ;;
        messagebox BoxError "Error"
          ("Could not filter data: " ++ fmt column) ;;
        ret df
    end.

(** ** Delimited text: [to_csv] and [read_csv] with their defaults

    A file is taken as its records of fields.  The embedding is exact
    for files whose fields are missing-value spellings, integer
    literals, integral floats written [z.0], the words true and false
    in any case, and texts that no number parser takes; on other fields
    (fractions, exponents, integers beyond 64 bits) it keeps the text
    where pandas would produce a number, and the properties below
    leave such files out by hypothesis. *)

Module Csv.

Definition render_int (z : Z) : string := NilZero.string_of_int (Z.to_int z).

Definition render_nat (n : nat) : string := render_int (Z.of_nat n).

(** A float that holds an integral value is written with [.0]. *)
Definition render_float (z : Z) : string := render_int z ++ ".0".

(** The text [to_csv] writes for one cell of a column of type [t];
    [na_rep] is the empty string. *)
Definition render (t : dtype) (c : cell) : string :=
  match c with
  | CNum z => match t with Int64 => render_int z | _ => render_float z end
  | CBool true => "True"
  | CBool false => "False"
  | CText s => s
  | CMissing => ""
  end.

Fixpoint render_cells (ts : list dtype) (cs : list cell) : list string :=
  match cs with
  | [] => []
  | c :: cs' => render (hd Object ts) c :: render_cells (tl ts) cs'
  end.

(** [df.to_csv(path, index=False)]: the header record, then one record
    per row; the index labels are not written. *)
Definition to_csv (df : DataFrame) : grid :=
  columns df :: map (fun r => render_cells (dtypes df) (cells r)) (rows df).

(** The field texts [read_csv] takes for a missing value; [None] is
    one of them from pandas 2 on. *)
Definition na_values (ver : version) : list string :=
  [""; "#N/A"; "#N/A N/A"; "#NA"; "-1.#IND"; "-1.#QNAN"; "-NaN"; "-nan";
   "1.#IND"; "1.#QNAN"; "<NA>"; "N/A"; "NA"; "NULL"; "NaN";
   "n/a"; "nan"; "null"]
  ++ match ver with P1 => [] | _ => ["None"] end.

Definition is_na (ver : version) (s : string) : bool :=
  existsb (String.eqb s) (na_values ver).

Definition int64 (z : Z) : bool :=
  ((- 2 ^ 63 <=? z) && (z <? 2 ^ 63))%Z.

(** Blanks, as the number parsers skip them: tab to carriage return,
    and the space. *)
Definition is_space (a : ascii) : bool :=
  let n := nat_of_ascii a in
  (Nat.leb 9 n && Nat.leb n 13) || Nat.eqb n 32.

Fixpoint ltrim (s : string) : string :=
  match s with
  | EmptyString => EmptyString
  | String a s' => if is_space a then ltrim s' else s
  end.

Fixpoint rtrim (s : string) : string :=
  match s with
  | EmptyString => EmptyString
  | String a s' =>
      match rtrim s' with
      | EmptyString => if is_space a then EmptyString else String a EmptyString
      | r => String a r
      end
  end.

Definition trim (s : string) : string := rtrim (ltrim s).

(** The blanks a line of blanks is made of: the tab and the space. *)
Definition is_pad (a : ascii) : bool :=
  let n := nat_of_ascii a in Nat.eqb n 9 || Nat.eqb n 32.

Fixpoint all_pad (s : string) : bool :=
  match s with
  | EmptyString => true
  | String a s' => is_pad a && all_pad s'
  end.

(** An optional sign and decimal digits. *)
Definition literal (s : string) : option Z :=
  match s with
  | EmptyString => None
  | String a s' =>
      if Ascii.eqb a "+"
      then option_map Z.of_uint (NilZero.uint_of_string s')
      else option_map Z.of_int (NilZero.int_of_string s)
  end.

(** An integer field: a literal in the 64-bit range, blanks around it
    skipped. *)
Definition parse_int (s : string) : option Z :=
  match literal (trim s) with
  | Some z => if int64 z then Some z else None
  | None => None
  end.

(** What stands before a final [.0]. *)
Fixpoint strip_dot0 (s : string) : option string :=
  match s with
  | EmptyString => None
  | String a s' =>
      if String.eqb s' ".0" then Some (String a EmptyString)
      else option_map (String a) (strip_dot0 s')
  end.

(** A float field holding an integral value: a literal followed by
    [.0]. *)
Definition parse_float (s : string) : option Z :=
  match strip_dot0 (trim s) with
  | Some body => literal body
  | None => None
  end.

Definition parse_num (s : string) : option Z :=
  match parse_int s with
  | Some z => Some z
  | None => parse_float s
  end.

Definition lower (a : ascii) : ascii :=
  let n := nat_of_ascii a in
  if Nat.leb 65 n && Nat.leb n 90 then ascii_of_nat (n + 32) else a.

Fixpoint lowercase (s : string) : string :=
  match s with
  | EmptyString => EmptyString
  | String a s' => String (lower a) (lowercase s')
  end.

(** A boolean field: the word true or false, in any case. *)
Definition parse_bool (s : string) : option bool :=
  let l := lowercase s in
  if String.eqb l "true" then Some true
  else if String.eqb l "false" then Some false
  else None.

Definition is_some {A} (o : option A) : bool :=
  match o with Some _ => true | None => false end.

(** How [read_csv] reads a column, settled from the fields that are not
    missing: integers, floats, booleans, booleans beside missing
    values, or text. *)
Inductive kind : Type := KInt | KFloat | KBool | KBoolNA | KText.

Definition infer (ver : version) (fields : list string) : kind :=
  match fields with
  | [] => KText
  | _ =>
      let present := filter (fun s => negb (is_na ver s)) fields in
      let gaps := existsb (is_na ver) fields in
      if forallb (fun s => is_some (parse_int s)) present then
        if gaps then KFloat else KInt
      else if forallb (fun s => is_some (parse_num s)) present then KFloat
      else if forallb (fun s => is_some (parse_bool s)) present then
        if gaps then KBoolNA else KBool
      else KText
  end.

(** The column type pandas reports for each kind. *)
Definition dtype_of (k : kind) : dtype :=
  match k with
  | KInt => Int64
  | KFloat => Float64
  | KBool => Boolean
  | KBoolNA => Object
  | KText => Object
  end.

Definition convert (ver : version) (k : kind) (s : string) : cell :=
  if is_na ver s then CMissing
  else match k with
       | KInt | KFloat =>
           match parse_num s with Some z => CNum z | None => CText s end
       | KBool | KBoolNA =>
           match parse_bool s with Some b => CBool b | None => CText s end
       | KText => CText s
       end.

(** Header names: an empty name becomes [Unnamed: j]; a name seen [k]
    times before gets the suffix [.k].  This is pandas' numbering for a
    header whose renamed names meet no name already there; the
    properties below take headers of distinct, non-empty names, which
    are kept as they are. *)
Fixpoint dedup_names (seen : list string) (j : nat) (names : list string)
  : list string :=
  match names with
  | [] => []
  | n :: rest =>
      let n1 := if String.eqb n "" then "Unnamed: " ++ render_nat j else n in
      let k := count_occ string_dec seen n1 in
      let n2 := if Nat.eqb k 0 then n1 else n1 ++ "." ++ render_nat k in
      n2 :: dedup_names (n1 :: seen) (S j) rest
  end.

(** A record shorter than the header is completed with missing fields. *)
Definition pad (n : nat) (rec : list string) : list string :=
  rec ++ repeat "" (n - List.length rec).

Definition column_fields (j : nat) (recs : list (list string)) : list string :=
  map (fun rec => nth j rec "") recs.

Fixpoint number_rows (ver : version) (i : nat) (ks : list kind)
    (recs : list (list string)) : list row :=
  match recs with
  | [] => []
  | rec :: rest =>
      mkRow i (map (fun p => convert ver (fst p) (snd p))
                 (combine ks (pad (List.length ks) rec)))
      :: number_rows ver (S i) ks rest
  end.

(** A blank line: nothing at all, or tabs and spaces only. *)
Definition blank (rec : list string) : bool :=
  match rec with
  | [] => true
  | [s] => negb (String.eqb s "") && all_pad s
  | _ => false
  end.

(** [pd.read_csv(path)] on the records of a file.  Blank lines are
    skipped; the first record left is the header; a file with no header
    raises [EmptyDataError]; a record longer than the header raises
    [ParserError] (a file whose first record is longer is read by
    pandas with an index column, which this model does not have). *)
Definition read_csv (ver : version) (g : grid) : string + DataFrame :=
  match filter (fun rec => negb (blank rec)) g with
  | [] => inl "No columns to parse from file"
  | header :: recs =>
      let n := List.length header in
      if existsb (fun rec => Nat.ltb n (List.length rec)) recs then
        inl "Error tokenizing data."
      else
        let ks := map (fun j => infer ver (column_fields j recs)) (seq 0 n) in
        inr (mkDF (dedup_names [] 0 header) (map dtype_of ks)
               (number_rows ver 0 ks recs))
  end.

End Csv.

(** The disk. *)
Fixpoint lookup (path : string) (fs : list (string * grid)) : option grid :=
  match fs with
  | [] => None
  | (p, g) :: rest => if String.eqb p path then Some g else lookup path rest
  end.

Definition nonempty (s : string) : bool :=
  match s with EmptyString => false | _ => true end.

(** [pd.read_csv(file_path)] against the disk. *)
Definition disk_read (ver : version) (path : string)
    (fs : list (string * grid)) : string + DataFrame :=
  match lookup path fs with
  | None => inl ("[Errno 2] No such file or directory: '" ++ path ++ "'")
  | Some g => Csv.read_csv ver g
  end.

Definition pd_read_csv (path : string) : M (string + DataFrame) :=
  fun w => Done (disk_read (pandas w) path (files w)) w.

(** [df.to_csv(file_path, index=False)] against the disk. *)
Definition df_to_csv (df : DataFrame) (path : string) : M (string + unit) :=
  fun w =>
    if existsb (String.eqb path) (locked w) then
      Done (inl ("[Errno 13] Permission denied: '" ++ path ++ "'")) w
    else
      Done (inr tt)
        (mkWorld (inputs w) (events w) ((path, Csv.to_csv df) :: files w)
           (locked w) (pandas w) (raises w)).

(** [repr] of the list of column names, as it appears in the log. *)
Definition repr_names (names : list string) : string :=
  "[" ++ String.concat ", " (map (fun n => "'" ++ n ++ "'") names) ++ "]".

Definition load_csv : M (option DataFrame) :=
  file_path <- askopenfilename ;;
  if nonempty file_path then
    logging INFO ("File selected: " ++ file_path) ;;
    r <- pd_read_csv file_path ;;
    match r with
    | inr df =>
        logging INFO ("File loaded successfully. Columns: "
                      ++ repr_names (columns df)) ;;
        ret (Some df)
    | inl e =>
        logging ERROR ("Error loading file: " ++ e) ;;
        messagebox BoxError "Error" ("Could not load file: " ++ e) ;;
        ret None
    end
  else
    logging INFO "No file selected." ;;
    ret None.

Definition save_csv (df : DataFrame) : M unit :=
  file_path <- asksaveasfilename ;;
  if nonempty file_path then
    r <- df_to_csv df file_path ;;
    match r with
    | inr _ =>
        logging INFO ("File saved successfully: " ++ file_path) ;;
        messagebox BoxInfo "Success"
          ("File saved successfully to " ++ file_path)
    | inl e =>
        logging ERROR ("Error saving file: " ++ e) ;;
        messagebox BoxError "Error" ("Could not save file: " ++ e)
    end
  else
    logging INFO "Save operation canceled.".

(** The reports and the charts read the frame and leave it alone.  Each
    call sits in a [try]: when the library raises, the [except] branch
    logs the failure and shows it in an error box. *)

Definition display_data_info (df : DataFrame) : M unit :=
  r <- library_call CallInfo df ;;
  match r with
  | None =>
      emit (PrintInfo df) ;;
      emit (PrintLine "None") ;;
      logging INFO "Displayed DataFrame information."
  | Some e =>
      logging ERROR ("Error displaying DataFrame info: " ++ e) ;;
      messagebox BoxError "Error" ("Could not display data info: " ++ e)
  end.

Definition describe_data (df : DataFrame) : M unit :=
  r <- library_call CallDescribe df ;;
  match r with
  | None =>
      emit (PrintSummary df) ;;
      messagebox BoxInfo "Summary"
        "Statistical summary displayed in console." ;;
      logging INFO "Displayed statistical summary."
  | Some e =>
      logging ERROR ("Error displaying summary: " ++ e) ;;
      messagebox BoxError "Error" ("Could not display summary: " ++ e)
  end.

(** What a chart handler does once the library has answered. *)
Definition charted (c : chart) (df : DataFrame) (what : string)
    (r : option string) : M unit :=
  match r with
  | None => emit (Show c df)
  | Some e =>
      logging ERROR ("Error plotting " ++ what ++ ": " ++ e) ;;
      messagebox BoxError "Error" ("Could not plot " ++ what ++ ": " ++ e)
  end.

Definition plot_simple (df : DataFrame) : M unit :=
  r <- library_call (CallPlot Simple) df ;; charted Simple df "data" r.

Definition plot_pairplot (df : DataFrame) : M unit :=
  r <- library_call (CallPlot Pairplot) df ;; charted Pairplot df "pairplot" r.

Definition plot_histogram (df : DataFrame) : M unit :=
  r <- library_call (CallPlot Histogram) df ;;
  charted Histogram df "histograms" r.

Definition plot_heatmap (df : DataFrame) : M unit :=
  r <- library_call (CallPlot Heatmap) df ;; charted Heatmap df "heatmap" r.

Definition out_of_fuel {A} : M A := fun _ => OutOfFuel.

Definition plot_prompt : string :=
  "Enter plot type (simple, pairplot, histogram, heatmap, exit):".

Definition action_prompt : string :=
  "Choose an action (info, summary, missing, filter, save, plot, exit):".

(** ** The two [while True] loops; [fuel] bounds the iterations. *)

Fixpoint user_plot_selection (fuel : nat) (df : DataFrame) : M unit :=
  match fuel with
  | O => out_of_fuel
  | S fuel' =>
      plot_type <- askstring "Input" plot_prompt ;;
      if is_token plot_type "simple" then
        plot_simple df ;; user_plot_selection fuel' df
      else if is_token plot_type "pairplot" then
        plot_pairplot df ;; user_plot_selection fuel' df
      else if is_token plot_type "histogram" then
        plot_histogram df ;; user_plot_selection fuel' df
      else if is_token plot_type "heatmap" then
        plot_heatmap df ;; user_plot_selection fuel' df
      else if is_token plot_type "exit" then
        ret tt
      else
        messagebox BoxWarning "Invalid input"
          "Please enter a valid plot type." ;;
        user_plot_selection fuel' df
  end.

Fixpoint main_loop (fuel : nat) (df : DataFrame) : M DataFrame :=
  match fuel with
  | O => out_of_fuel
  | S fuel' =>
      action <- askstring "Action" action_prompt ;;
      if is_token action "info" then
        display_data_info df ;; main_loop fuel' df
      else if is_token action "summary" then
        describe_data df ;; main_loop fuel' df
      else if is_token action "missing" then
        df' <- handle_missing_data df ;; main_loop fuel' df'
      else if is_token action "filter" then
        df' <- filter_data df ;; main_loop fuel' df'
      else if is_token action "save" then
        save_csv df ;; main_loop fuel' df
      else if is_token action "plot" then
        user_plot_selection fuel' df ;; main_loop fuel' df
      else if is_token action "exit" then
        ret df
      else
        messagebox BoxWarning "Invalid input"
          "Please enter a valid action." ;;
        main_loop fuel' df
  end.

(** [main] returns the table the session ended with, [None] when no
    table was loaded. *)
Definition main (fuel : nat) : M (option DataFrame) :=
  logging INFO "Application started." ;;
  df <- load_csv ;;
  match df with
  | Some df0 =>
      df' <- main_loop fuel df0 ;;
      logging INFO "Application ended." ;;
      ret (Some df')
  | None =>
      logging INFO "Application ended." ;;
      ret None
  end.

(** ** A sample session, run *)

Definition sample_file : grid :=
  [["name"; "age"; "city"];
   ["ann"; "31"; "Oslo"];
   ["bob"; ""; "Rome"];
   ["cy"; "27"; ""];
   ["dee"; "44"; "Oslo"]].

Definition sample_df : DataFrame :=
  match Csv.read_csv P3 sample_file with
  | inr df => df
  | inl _ => mkDF [] [] []
  end.

Definition is_numeric (t : dtype) : bool :=
  match t with Int64 | Float64 => true | _ => false end.

(** A library that behaves as pandas 2 and 3 with matplotlib do on the
    two calls whose failures are easy to meet: a line plot needs a
    numeric column, a correlation matrix refuses a text column. *)
Definition sample_library (c : call) (df : DataFrame) : option string :=
  match c with
  | CallPlot Simple =>
      if existsb is_numeric (dtypes df) then None
      else Some "no numeric data to plot"
  | CallPlot Heatmap =>
      if forallb is_numeric (dtypes df) then None
      else Some "could not convert string to float"
  | _ => None
  end.

(** The sample worlds: pandas 3 unless said otherwise. *)
Definition world_on (ver : version) (answers : list (option string)) : World :=
  mkWorld answers [] [("test.csv", sample_file)] [] ver sample_library.

Definition world0 (answers : list (option string)) : World :=
  world_on P3 answers.

(** ** Vocabulary of the properties *)

(** The cell a row holds under a column name. *)
Definition value_at (df : DataFrame) (column : string) (r : row) : cell :=
  match Pandas.get_loc column (columns df) with
  | Some i => Pandas.at_pos i r
  | None => CMissing
  end.

(** [l1] is [l2] with some elements left out, order kept. *)
Inductive Subsequence {A : Type} : list A -> list A -> Prop :=
| Sub_nil : Subsequence [] []
| Sub_skip x l1 l2 : Subsequence l1 l2 -> Subsequence l1 (x :: l2)
| Sub_keep x l1 l2 : Subsequence l1 l2 -> Subsequence (x :: l1) (x :: l2).

(** The world after the user has been asked and has answered. *)
Definition after (w : World) (rest : list (option string))
  (new_events : list event) : World :=
  mkWorld rest (events w ++ new_events) (files w) (locked w)
    (pandas w) (raises w).


Definition ask_filter_column : event :=
  Asked "Filter" "Enter column name to filter:".

Definition ask_filter_value (column : string) : event :=
  Asked "Filter" ("Enter value to filter " ++ column ++ ":").

Definition ask_missing : event :=
  Asked "Missing Data" "Choose action for missing data (drop, fill, cancel):".

Definition ask_fill : event :=
  Asked "Fill Missing Data" "Enter value to fill missing data:".

(** A warning reaches the user as a log line or as a message box. *)
Definition is_warning (e : event) : bool :=
  match e with
  | Log WARNING _ => true
  | MessageBox BoxWarning _ _ => true
  | _ => false
  end.

(** The tokens each loop acts on. *)
Definition actions : list string :=
  ["info"; "summary"; "missing"; "filter"; "save"; "plot"; "exit"].

Definition plot_types : list string :=
  ["simple"; "pairplot"; "histogram"; "heatmap"; "exit"].

Definition recognized (tokens : list string) (a : option string) : bool :=
  existsb (is_token a) tokens.

Definition ask_action : event := Asked "Action" action_prompt.
Definition ask_plot : event := Asked "Input" plot_prompt.

Definition warn_action : event :=
  MessageBox BoxWarning "Invalid input" "Please enter a valid action.".

Definition warn_plot : event :=
  MessageBox BoxWarning "Invalid input" "Please enter a valid plot type.".

(** The disk after one more file is written. *)
Definition with_file (w : World) (path : string) (g : grid) : World :=
  mkWorld (inputs w) (events w) ((path, g) :: files w) (locked w)
    (pandas w) (raises w).


(** [c'] is a typed reading of the text [s]: the text itself, or the
    number or the boolean the text spells. *)
Definition reads_as (s : string) (c' : cell) : bool :=
  match c' with
  | CText t => String.eqb t s
  | CNum z =>
      match Csv.parse_num s with Some z' => Z.eqb z z' | None => false end
  | CBool b =>
      match Csv.parse_bool s with Some b' => Bool.eqb b b' | None => false end
  | CMissing => false
  end.




(** Numbers a float holds exactly, [to_csv] writes without an exponent
    and the float parser of [read_csv] reads back exactly. *)
Definition bounded (z : Z) : bool := (Z.abs z <=? 10 ^ 15)%Z.

(** An integer literal: an optional sign and digits, no blanks. *)
Definition int_lit (s : string) : bool :=
  match Csv.literal s with Some z => bounded z | None => false end.

(** An integral float as pandas writes it: [z.0]. *)
Definition float_lit (s : string) : bool :=
  match Csv.parse_float s with
  | Some z => bounded z && String.eqb s (Csv.render_float z)
  | None => false
  end.

Definition bool_lit (s : string) : bool := Csv.is_some (Csv.parse_bool s).

Definition is_letter (a : ascii) : bool :=
  let n := nat_of_ascii (Csv.lower a) in Nat.leb 97 n && Nat.leb n 122.

Definition is_printable (a : ascii) : bool :=
  let n := nat_of_ascii a in Nat.leb 32 n && Nat.leb n 126.

Fixpoint printable (s : string) : bool :=
  match s with
  | EmptyString => true
  | String a s' => is_printable a && printable s'
  end.

(** A text no number or boolean parser takes: printable, starting with
    a letter, not the word true or false, and not starting like inf or
    nan. *)
Definition safe_text (s : string) : bool :=
  match s with
  | EmptyString => false
  | String a _ =>
      is_letter a && printable s && negb (bool_lit s)
      && negb (String.prefix "inf" (Csv.lowercase s))
      && negb (String.prefix "nan" (Csv.lowercase s))
  end.

(** The fields on which the embedding of [read_csv] is exact. *)
Definition modelled (ver : version) (s : string) : bool :=
  Csv.is_na ver s || int_lit s || float_lit s || bool_lit s || safe_text s.


(** A column name the header keeps as it is. *)
Definition plain_name (s : string) : bool := nonempty s && printable s.



(** The files [read_csv] reads exactly: a header that is not a blank
    line, names distinct and plain, and records that are not blank
    lines, no longer than the header, made of modelled fields. *)
Definition well_formed (ver : version) (header : list string)
    (recs : list (list string)) : Prop :=
  Csv.blank header = false /\
  NoDup header /\
  forallb plain_name header = true /\
  Forall (fun rec =>
            Csv.blank rec = false /\
            (List.length rec <= List.length header)%nat /\
            forallb (modelled ver) rec = true) recs.



(** The index labels of a frame, in row order. *)
Definition labels (df : DataFrame) : list nat := map label (rows df).

(** A text cell. *)
Definition is_text (c : cell) : bool :=
  match c with CText _ => true | _ => false end.

(** A computation that returns leaves the world related by [R]. *)
Definition respects (R : World -> World -> Prop) {A} (m : M A) : Prop :=
  forall w a w', m w = Done a w' -> R w w'.

(** The trace only grows. *)
Definition trace_extends (w w' : World) : Prop :=
  exists evs, events w' = (events w ++ evs)%list.

(** The disk is as it was. *)
Definition same_disk (w w' : World) : Prop := files w' = files w.

(** Every path that could be read can still be read. *)
Definition disk_kept (w w' : World) : Prop :=
  forall p g, lookup p (files w) = Some g ->
    exists g', lookup p (files w') = Some g'.

(** The frame [filter_data] returns for a column that is there. *)
Definition filtered (df : DataFrame) (c : string) (value : option string)
  : DataFrame :=
  mkDF (columns df) (dtypes df)
    (filter (fun r => Pandas.eq_scalar value (value_at df c r)) (rows df)).

(** A computation that returns, returns a value satisfying [P]. *)
Definition returns {A} (P : A -> Prop) (m : M A) : Prop :=
  forall w a w', m w = Done a w' -> P a.

(** What a session may do to the table it holds: the column names stay,
    the index labels left are a subsequence of the labels it had, and a
    table with one cell per column in every row stays so. *)
Definition evolves (df df' : DataFrame) : Prop :=
  columns df' = columns df /\
  Subsequence (labels df') (labels df) /\
  (rectangular df -> rectangular df').


(** When [fillna] is given a literal and fills. *)
Definition fills (ver : version) (df : DataFrame) : bool :=
  match ver with P3 => negb (Pandas.float_missing df) | _ => true end.



(** The chart a plot token asks for. *)
Definition chart_of (a : option string) : option chart :=
  if is_token a "simple" then Some Simple
  else if is_token a "pairplot" then Some Pairplot
  else if is_token a "histogram" then Some Histogram
  else if is_token a "heatmap" then Some Heatmap
  else None.

(** The name each chart handler gives its chart in its error texts. *)
Definition chart_name (c : chart) : string :=
  match c with
  | Simple => "data"
  | Pairplot => "pairplot"
  | Histogram => "histograms"
  | Heatmap => "heatmap"
  end.

(** What a chart handler adds to the trace: the chart, or the failure
    logged and shown when the library raises. *)
Definition chart_events (w : World) (c : chart) (df : DataFrame)
  : list event :=
  match raises w (CallPlot c) df with
  | None => [Show c df]
  | Some e =>
      [Log ERROR ("Error plotting " ++ chart_name c ++ ": " ++ e);
       MessageBox BoxError "Error"
         ("Could not plot " ++ chart_name c ++ ": " ++ e)]
  end.

(** What the plot loop shows for a run of answers none of which is
    [exit]: the prompt, then the chart handler's events or the warning,
    for each. *)
Definition plot_trace (w : World) (df : DataFrame)
    (answers : list (option string)) : list event :=
  flat_map
    (fun a => ask_plot ::
              match chart_of a with
              | Some c => chart_events w c df
              | None => [warn_plot]
              end)
    answers.

(** What a fill adds to the trace after its two prompts, when [fillna]
    raises and when it returns. *)
Definition fill_error (e : string) : list event :=
  [Log ERROR ("Error filling missing data: " ++ e);
   MessageBox BoxError "Error" ("Could not fill missing data: " ++ e)].

Definition fill_success (a : option string) : list event :=
  [Log INFO ("Missing data filled with " ++ fmt a ++ ".");
   MessageBox BoxInfo "Success"
     ("Missing data filled with '" ++ fmt a ++ "'.")].

(** A computation that returns has used up a prefix of the answers. *)
Definition consumes {A} (m : M A) : Prop :=
  forall w a w', m w = Done a w' ->
    exists pre, inputs w = (pre ++ inputs w')%list.

(** A computation that returns has read the answer [exit] last. *)
Definition stops_at_exit {A} (m : M A) : Prop :=
  forall w a w', m w = Done a w' ->
    exists pre, inputs w = (pre ++ Some "exit" :: inputs w')%list.

(** With fewer than [n] answers left the iteration budget is not hit. *)
Definition finishes {A} (n : nat) (m : M A) : Prop :=
  forall w, (List.length (inputs w) < n)%nat -> m w <> OutOfFuel.

(** * Properties *)

(** ** Lists and masks *)

Lemma select_mask_filter (f : row -> bool) (rs : list row) :
  Pandas.select (map f rs) rs = filter f rs.
Proof.
  induction rs as [|r rs IH]; simpl; [reflexivity|].
  destruct (f r); now rewrite IH.
Qed.

Lemma filter_Subsequence {A} (f : A -> bool) (l : list A) :
  Subsequence (filter f l) l.
Proof.
  induction l as [|x l IH]; simpl; [constructor|].
  destruct (f x); now constructor.
Qed.

Lemma Subsequence_In {A} (l1 l2 : list A) :
  Subsequence l1 l2 -> forall x, In x l1 -> In x l2.
Proof.
  induction 1; simpl; intros y Hy; auto.
  destruct Hy; auto.
Qed.

Lemma Subsequence_map {A B} (f : A -> B) (l1 l2 : list A) :
  Subsequence l1 l2 -> Subsequence (map f l1) (map f l2).
Proof. induction 1; simpl; now constructor. Qed.

Lemma Subsequence_NoDup {A} (l1 l2 : list A) :
  Subsequence l1 l2 -> NoDup l2 -> NoDup l1.
Proof.
  induction 1; intros Hnd; [constructor| |].
  - inversion Hnd; auto.
  - inversion Hnd; subst. constructor; auto.
    intro Hin. eapply Subsequence_In in Hin; eauto.
Qed.

Lemma Subsequence_length {A} (l1 l2 : list A) :
  Subsequence l1 l2 -> (List.length l1 <= List.length l2)%nat.
Proof. induction 1; simpl; lia. Qed.

Lemma filter_keep_all {A} (f : A -> bool) (l : list A) :
  Forall (fun x => f x = true) l -> filter f l = l.
Proof.
  induction 1 as [|x l Hx _ IH]; simpl; [reflexivity|]. now rewrite Hx, IH.
Qed.

Lemma existsb_none {A} (f : A -> bool) (l : list A) :
  Forall (fun x => f x = false) l -> existsb f l = false.
Proof.
  induction 1 as [|x l Hx _ IH]; simpl; [reflexivity|]. now rewrite Hx, IH.
Qed.

(** ** Column lookup *)

Lemma contains_In (cols : list string) (c : string) :
  Pandas.contains cols (Some c) = true <-> In c cols.
Proof.
  simpl. rewrite existsb_exists. split.
  - intros (x & Hx & Heq). apply String.eqb_eq in Heq. now subst.
  - intros H. exists c. split; [assumption|apply String.eqb_refl].
Qed.

Lemma get_loc_In (cols : list string) (c : string) :
  In c cols -> exists i, Pandas.get_loc c cols = Some i /\ nth_error cols i = Some c.
Proof.
  induction cols as [|x cols IH]; simpl; [contradiction|].
  intros H. destruct (String.eqb_spec c x) as [->|Hne].
  - exists 0%nat. auto.
  - destruct H as [->|H]; [congruence|].
    destruct (IH H) as (i & -> & Hi). exists (S i). auto.
Qed.

Lemma get_loc_contains (cols : list string) (c : string) :
  Pandas.contains cols (Some c) = true ->
  exists i, Pandas.get_loc c cols = Some i.
Proof.
  intros H. apply contains_In in H.
  destruct (get_loc_In cols c H) as (i & Hi & _). eauto.
Qed.

(** ** Running the monad *)

Lemma bind_run {A B} (m : M A) (k : A -> M B) (w : World) :
  (x <- m ;; k x) w =
  match m w with
  | Done a w' => k a w'
  | Blocked w' => Blocked w'
  | OutOfFuel => OutOfFuel
  end.
Proof. reflexivity. Qed.

Lemma ret_run {A} (a : A) (w : World) : ret a w = Done a w.
Proof. reflexivity. Qed.

Lemma inputs_after w rest evs : inputs (after w rest evs) = rest.
Proof. reflexivity. Qed.

Lemma events_after w rest evs :
  events (after w rest evs) = (events w ++ evs)%list.
Proof. reflexivity. Qed.

Lemma files_after w rest evs : files (after w rest evs) = files w.
Proof. reflexivity. Qed.

Lemma locked_after w rest evs : locked (after w rest evs) = locked w.
Proof. reflexivity. Qed.

Lemma after_after w r1 e1 r2 e2 :
  after (after w r1 e1) r2 e2 = after w r2 (e1 ++ e2).
Proof. unfold after; simpl. now rewrite <- app_assoc. Qed.

Lemma emit_run (e : event) (w : World) :
  emit e w = Done tt (after w (inputs w) [e]).
Proof. reflexivity. Qed.

Lemma logging_run l msg w :
  logging l msg w = Done tt (after w (inputs w) [Log l msg]).
Proof. reflexivity. Qed.

Lemma messagebox_run b t msg w :
  messagebox b t msg w = Done tt (after w (inputs w) [MessageBox b t msg]).
Proof. reflexivity. Qed.

Lemma askstring_run title prompt w a rest :
  inputs w = a :: rest ->
  askstring title prompt w = Done a (after w rest [Asked title prompt]).
Proof.
  intros H. unfold askstring, bind, emit, next_answer. simpl. rewrite H.
  reflexivity.
Qed.

Lemma askstring_blocked title prompt w :
  inputs w = [] ->
  askstring title prompt w = Blocked (after w [] [Asked title prompt]).
Proof.
  intros H. unfold askstring, bind, emit, next_answer. simpl. rewrite H.
  reflexivity.
Qed.

Lemma askopenfilename_run w a rest :
  inputs w = a :: rest ->
  askopenfilename w = Done (path_of a) (after w rest [AskedOpenFile]).
Proof.
  intros H. unfold askopenfilename, bind, emit, next_answer. simpl. rewrite H.
  reflexivity.
Qed.

Lemma askopenfilename_blocked w :
  inputs w = [] ->
  askopenfilename w = Blocked (after w [] [AskedOpenFile]).
Proof.
  intros H. unfold askopenfilename, bind, emit, next_answer. simpl. rewrite H.
  reflexivity.
Qed.

Lemma asksaveasfilename_run w a rest :
  inputs w = a :: rest ->
  asksaveasfilename w = Done (path_of a) (after w rest [AskedSaveFile]).
Proof.
  intros H. unfold asksaveasfilename, bind, emit, next_answer. simpl.
  rewrite H. reflexivity.
Qed.

Lemma asksaveasfilename_blocked w :
  inputs w = [] ->
  asksaveasfilename w = Blocked (after w [] [AskedSaveFile]).
Proof.
  intros H. unfold asksaveasfilename, bind, emit, next_answer. simpl.
  rewrite H. reflexivity.
Qed.


Lemma df_to_csv_run df path w :
  existsb (String.eqb path) (locked w) = false ->
  df_to_csv df path w = Done (inr tt) (with_file w path (Csv.to_csv df)).
Proof. intros H. unfold df_to_csv. now rewrite H. Qed.

Lemma df_to_csv_locked df path w :
  existsb (String.eqb path) (locked w) = true ->
  df_to_csv df path w =
  Done (inl ("[Errno 13] Permission denied: '" ++ path ++ "'")) w.
Proof. intros H. unfold df_to_csv. now rewrite H. Qed.

Lemma files_with_file w path g :
  files (with_file w path g) = (path, g) :: files w.
Proof. reflexivity. Qed.

Lemma pd_read_csv_run path w :
  pd_read_csv path w = Done (disk_read (pandas w) path (files w)) w.
Proof. reflexivity. Qed.

Lemma pandas_version_run w : pandas_version w = Done (pandas w) w.
Proof. reflexivity. Qed.

Lemma library_call_run c df w : library_call c df w = Done (raises w c df) w.
Proof. reflexivity. Qed.

Lemma pandas_after w rest evs : pandas (after w rest evs) = pandas w.
Proof. reflexivity. Qed.

Lemma raises_after w rest evs : raises (after w rest evs) = raises w.
Proof. reflexivity. Qed.

#[global] Opaque askstring askopenfilename asksaveasfilename emit logging
  messagebox after pd_read_csv df_to_csv pandas_version library_call.

(** One step of symbolic execution of a handler. *)
Ltac run_step :=
  first
    [ rewrite bind_run
    | rewrite ret_run
    | rewrite emit_run
    | rewrite logging_run
    | rewrite messagebox_run
    | erewrite askstring_run by (rewrite ?inputs_after; eauto)
    | erewrite askstring_blocked by (rewrite ?inputs_after; eauto)
    | erewrite askopenfilename_run by (rewrite ?inputs_after; eauto)
    | erewrite askopenfilename_blocked by (rewrite ?inputs_after; eauto)
    | erewrite asksaveasfilename_run by (rewrite ?inputs_after; eauto)
    | erewrite asksaveasfilename_blocked by (rewrite ?inputs_after; eauto)
    | rewrite pd_read_csv_run
    | rewrite pandas_version_run
    | rewrite library_call_run
    | rewrite files_after
    | rewrite pandas_after
    | rewrite raises_after
    | rewrite after_after
    | rewrite inputs_after ];
  cbv beta iota.

(** Comparing an answer that is known with a literal token. *)
Ltac tokens := progress cbn [is_token String.eqb Ascii.eqb Bool.eqb].

Ltac run := repeat first [run_step | tokens]; cbn [app].

(** What [filter_data] does once both dialogs are answered and the
    column is there. *)
Lemma filter_data_found (df : DataFrame) (c : string) (value : option string)
    (w : World) (rest : list (option string)) :
  inputs w = Some c :: value :: rest ->
  Pandas.contains (columns df) (Some c) = true ->
  let df' := mkDF (columns df) (dtypes df)
               (filter (fun r => Pandas.eq_scalar value (value_at df c r))
                  (rows df)) in
  filter_data df w =
  Done df'
    (after w rest
       [ask_filter_column; ask_filter_value c;
        Log INFO ("Data filtered on " ++ c ++ " = " ++ fmt value ++ ".");
        PrintFrame df']).
Proof.
  intros Hin Hc df'. destruct (get_loc_contains _ _ Hc) as (i & Hi).
  assert (Hdf : Pandas.getitem_mask df
                  (Pandas.series_eq (map (Pandas.at_pos i) (rows df)) value)
                = df').
  { unfold Pandas.getitem_mask, Pandas.series_eq, df'. rewrite map_map.
    rewrite (select_mask_filter
               (fun r => Pandas.eq_scalar value (Pandas.at_pos i r))).
    unfold value_at. now rewrite Hi. }
  unfold filter_data. run. rewrite Hc. cbn [negb fmt]. run.
  unfold Pandas.getitem. rewrite Hi, Hdf. run. reflexivity.
Qed.

Lemma filter_data_missing_column (df : DataFrame) (column : option string)
    (w : World) (rest : list (option string)) :
  inputs w = column :: rest ->
  Pandas.contains (columns df) column = false ->
  filter_data df w =
  Done df
    (after w rest
       [ask_filter_column; MessageBox BoxError "Error" "Column not found."]).
Proof.
  intros Hin Hc. unfold filter_data. run. rewrite Hc. cbn [negb]. run.
  reflexivity.
Qed.

Lemma contains_Some (cols : list string) (column : option string) :
  Pandas.contains cols column = true -> exists c, column = Some c /\ In c cols.
Proof.
  destruct column as [c|]; [|discriminate].
  intros H. exists c. split; [reflexivity|now apply contains_In].
Qed.

Lemma contains_false (cols : list string) (column : option string) :
  (forall c, column = Some c -> ~ In c cols) ->
  Pandas.contains cols column = false.
Proof.
  intros H. destruct (Pandas.contains cols column) eqn:E; [|reflexivity].
  destruct (contains_Some _ _ E) as (c & -> & Hin). now elim (H c).
Qed.

Lemma cell_eqb_eq (a b : cell) : cell_eqb a b = true <-> a = b.
Proof.
  destruct a, b; simpl; split; try discriminate; try reflexivity.
  - intros H. apply Z.eqb_eq in H. now subst.
  - intros [= ->]. apply Z.eqb_refl.
  - intros H. apply Bool.eqb_prop in H. now subst.
  - intros [= ->]. apply Bool.eqb_reflx.
  - intros H. apply String.eqb_eq in H. now subst.
  - intros [= ->]. apply String.eqb_refl.
Qed.

Lemma eq_scalar_text (v : string) (c : cell) :
  Pandas.eq_scalar (Some v) c = cell_eqb c (CText v).
Proof. destruct c; reflexivity. Qed.

Lemma eq_scalar_None (c : cell) : Pandas.eq_scalar None c = false.
Proof. destruct c; reflexivity. Qed.

(** However the dialogs are answered, [filter_data] either waits at a
    dialog or hands back a frame with the same columns whose rows are a
    subsequence of the rows it was given. *)
Lemma filter_data_cases (df : DataFrame) (w : World) :
  (exists w', filter_data df w = Blocked w') \/
  (exists df' w', filter_data df w = Done df' w' /\
     columns df' = columns df /\ Subsequence (rows df') (rows df)).
Proof.
  assert (Hrefl : forall l : list row, Subsequence l l).
  { induction l; now constructor. }
  destruct (inputs w) as [|column rest] eqn:Hin.
  - left. unfold filter_data. run. eauto.
  - destruct (Pandas.contains (columns df) column) eqn:Hc.
    + destruct (contains_Some _ _ Hc) as (c & -> & _).
      destruct rest as [|value rest].
      * left. unfold filter_data. run. rewrite Hc. cbn [negb fmt]. run. eauto.
      * right. rewrite (filter_data_found df c value w rest Hin Hc).
        do 2 eexists. split; [reflexivity|]. split; [reflexivity|].
        apply filter_Subsequence.
    + right. rewrite (filter_data_missing_column df column w rest Hin Hc).
      do 2 eexists. split; [reflexivity|]. split; [reflexivity|]. apply Hrefl.
Qed.

(** A dismissed value dialog compares every cell with [None]: no row
    is kept. *)
Lemma filter_data_value_dismissed (df : DataFrame) (c : string)
    (w : World) (rest : list (option string)) :
  inputs w = Some c :: None :: rest ->
  In c (columns df) ->
  exists w', filter_data df w = Done (mkDF (columns df) (dtypes df) []) w'.
Proof.
  intros Hin Hc. apply contains_In in Hc.
  rewrite (filter_data_found df c None w rest Hin Hc).
  assert (E : filter (fun r => Pandas.eq_scalar None (value_at df c r))
                (rows df) = []).
  { induction (rows df) as [|r rs IH]; simpl; [reflexivity|].
    now rewrite eq_scalar_None. }
  rewrite E. eauto.
Qed.

(** ** Filtering *)

(** C1: with the column present, [filter_data] hands back the table
    holding exactly the rows whose cell in that column is the text
    entered, numbers and booleans never matching a text; with the
    column absent it shows the error box and hands back the table it
    was given. *)
Theorem filter_data_exact_match
    (df : DataFrame) (column : option string) (value : string)
    (w : World) (rest : list (option string))
    (Hin : inputs w = column :: Some value :: rest) :
  (forall c, column = Some c -> In c (columns df) ->
     exists df' w',
       filter_data df w = Done df' w' /\
       inputs w' = rest /\
       columns df' = columns df /\
       rows df' =
         filter (fun r => cell_eqb (value_at df c r) (CText value)) (rows df) /\
       (forall r, In r (rows df') <->
                  In r (rows df) /\ value_at df c r = CText value)) /\
  ((forall c, column = Some c -> ~ In c (columns df)) ->
     exists w',
       filter_data df w = Done df w' /\
       inputs w' = Some value :: rest /\
       files w' = files w /\
       events w' =
         (events w ++ [ask_filter_column;
                       MessageBox BoxError "Error" "Column not found."])%list).
Proof.
  split.
  - intros c -> Hc. apply contains_In in Hc.
    rewrite (filter_data_found df c (Some value) w rest Hin Hc).
    do 2 eexists. split; [reflexivity|].
    split; [apply inputs_after|]. split; [reflexivity|]. cbn [rows].
    assert (E : filter (fun r => Pandas.eq_scalar (Some value) (value_at df c r))
                  (rows df)
                = filter (fun r => cell_eqb (value_at df c r) (CText value))
                    (rows df)).
    { apply filter_ext. intros r. apply eq_scalar_text. }
    rewrite E. split; [reflexivity|].
    intros r. rewrite filter_In, cell_eqb_eq. reflexivity.
  - intros Hc. apply contains_false in Hc.
    rewrite (filter_data_missing_column df column w _ Hin Hc).
    eexists. split; [reflexivity|].
    rewrite inputs_after, files_after, events_after. auto.
Qed.

Lemma filter_data_exact_match_witness :
  exists df' w',
    filter_data sample_df
      (world0 [Some "city"; Some "Oslo"; Some "exit"]) = Done df' w' /\
    map label (rows df') = [0; 3]%nat.
Proof.
  destruct (filter_data_exact_match sample_df (Some "city") "Oslo"
              (world0 [Some "city"; Some "Oslo"; Some "exit"])
              [Some "exit"] eq_refl) as [H _].
  destruct (H "city" eq_refl) as (df' & w' & Hrun & _ & _ & Hrows & _).
  - simpl. auto.
  - exists df', w'. split; [exact Hrun|]. rewrite Hrows. reflexivity.
Defined.

(** C9: the rows [filter_data] keeps are a subsequence of the rows it
    was given: same relative order, none repeated, none new. *)
Theorem filter_data_subsequence
    (df : DataFrame) (c : string) (value : option string)
    (w : World) (rest : list (option string))
    (Hin : inputs w = Some c :: value :: rest)
    (Hc : In c (columns df)) :
  exists df' w',
    filter_data df w = Done df' w' /\
    Subsequence (rows df') (rows df) /\
    (forall r, In r (rows df') -> In r (rows df)) /\
    (NoDup (map label (rows df)) -> NoDup (map label (rows df'))).
Proof.
  apply contains_In in Hc.
  rewrite (filter_data_found df c value w rest Hin Hc).
  do 2 eexists. split; [reflexivity|]. cbn [rows].
  pose proof (filter_Subsequence
                (fun r => Pandas.eq_scalar value (value_at df c r)) (rows df))
    as Hs.
  split; [exact Hs|]. split.
  - now apply Subsequence_In.
  - apply Subsequence_NoDup. now apply Subsequence_map.
Qed.

Lemma filter_data_subsequence_witness :
  exists df' w',
    filter_data sample_df (world0 [Some "name"; Some "bob"]) = Done df' w' /\
    Subsequence (rows df') (rows sample_df).
Proof.
  destruct (filter_data_subsequence sample_df "name" (Some "bob")
              (world0 [Some "name"; Some "bob"]) [] eq_refl)
    as (df' & w' & Hrun & Hs & _).
  - simpl. auto.
  - exists df', w'. split; assumption.
Defined.

(** ** Missing data *)

Lemma row_has_na_In (r : row) : row_has_na r = true <-> In CMissing (cells r).
Proof.
  unfold row_has_na. rewrite existsb_exists. split.
  - intros (c & Hc & Hna). destruct c; try discriminate. exact Hc.
  - intros H. exists CMissing. auto.
Qed.

Lemma row_has_na_false (r : row) :
  row_has_na r = false <-> ~ In CMissing (cells r).
Proof.
  rewrite <- row_has_na_In. destruct (row_has_na r); split; intros H;
    try reflexivity; try discriminate; try congruence.
Qed.

Lemma has_na_false (df : DataFrame) :
  has_na df = false <-> forall r, In r (rows df) -> ~ In CMissing (cells r).
Proof.
  unfold has_na. split.
  - intros H r Hr. apply row_has_na_false.
    destruct (row_has_na r) eqn:E; [|reflexivity].
    assert (existsb row_has_na (rows df) = true)
      by (apply existsb_exists; eauto).
    congruence.
  - intros H. destruct (existsb row_has_na (rows df)) eqn:E; [|reflexivity].
    apply existsb_exists in E. destruct E as (r & Hr & Hna).
    apply row_has_na_In in Hna. now elim (H r Hr).
Qed.

Lemma dropna_no_na (df : DataFrame) : has_na (Pandas.dropna df) = false.
Proof.
  apply has_na_false. intros r Hr. simpl in Hr.
  apply filter_In in Hr. destruct Hr as [_ Hr].
  apply row_has_na_false. now destruct (row_has_na r).
Qed.

Lemma fill_cell_not_na (v : string) (c : cell) :
  isna (Pandas.fill_cell v c) = false.
Proof. destruct c; reflexivity. Qed.

Lemma fill_row_no_na (v : string) (r : row) :
  row_has_na (Pandas.fill_row v r) = false.
Proof.
  unfold row_has_na, Pandas.fill_row. simpl.
  induction (cells r) as [|c cs IH]; simpl; [reflexivity|].
  now rewrite fill_cell_not_na, IH.
Qed.

Lemma Forall2_map_r {A B} (P : A -> B -> Prop) (f : A -> B) (l : list A) :
  (forall x, In x l -> P x (f x)) -> Forall2 P l (map f l).
Proof.
  induction l as [|x l IH]; simpl; intros H; constructor; auto.
Qed.

Lemma missing_drop (df : DataFrame) (w : World) rest :
  inputs w = Some "drop" :: rest ->
  handle_missing_data df w =
  Done (Pandas.dropna df)
    (after w rest
       [ask_missing; Log INFO "Missing data rows dropped.";
        MessageBox BoxInfo "Success" "Rows with missing data were dropped."]).
Proof.
  intros Hin. unfold handle_missing_data. run. reflexivity.
Qed.

Lemma missing_fill (df : DataFrame) (w : World) (fill_value : option string) rest :
  inputs w = Some "fill" :: fill_value :: rest ->
  handle_missing_data df w =
  match Pandas.fillna (pandas w) df fill_value with
  | inr df' =>
      Done df'
        (after w rest
           [ask_missing; ask_fill;
            Log INFO ("Missing data filled with " ++ fmt fill_value ++ ".");
            MessageBox BoxInfo "Success"
              ("Missing data filled with '" ++ fmt fill_value ++ "'.")])
  | inl e =>
      Done df
        (after w rest
           [ask_missing; ask_fill;
            Log ERROR ("Error filling missing data: " ++ e);
            MessageBox BoxError "Error" ("Could not fill missing data: " ++ e)])
  end.
Proof.
  intros Hin. unfold handle_missing_data. run.
  destruct (Pandas.fillna (pandas w) df fill_value); run; reflexivity.
Qed.

Lemma missing_cancel (df : DataFrame) (w : World) rest :
  inputs w = Some "cancel" :: rest ->
  handle_missing_data df w =
  Done df
    (after w rest [ask_missing; Log INFO "Missing data handling canceled."]).
Proof.
  intros Hin. unfold handle_missing_data. run. reflexivity.
Qed.

Lemma missing_invalid (df : DataFrame) (w : World) (a : option string) rest :
  inputs w = a :: rest ->
  is_token a "drop" = false ->
  is_token a "fill" = false ->
  is_token a "cancel" = false ->
  handle_missing_data df w =
  Done df
    (after w rest
       [ask_missing; Log WARNING "Invalid input for missing data handling."]).
Proof.
  intros Hin Hd Hf Hc. unfold handle_missing_data. run.
  rewrite Hd, Hf, Hc. run. reflexivity.
Qed.

Lemma is_token_true (a : option string) (tok : string) :
  is_token a tok = true <-> a = Some tok.
Proof.
  destruct a as [s|]; simpl; [|split; discriminate].
  rewrite String.eqb_eq. split; [now intros ->|now intros [= ->]].
Qed.

Lemma is_token_false (a : option string) (tok : string) :
  is_token a tok = false <-> a <> Some tok.
Proof.
  rewrite <- is_token_true. destruct (is_token a tok); split; congruence.
Qed.

(** What [fillna] hands back when it returns: the frame itself, or the
    frame filled. *)
Lemma fillna_inr ver df value df' :
  Pandas.fillna ver df value = inr df' ->
  df' = df \/ exists v, value = Some v /\ df' = Pandas.filled df v.
Proof.
  unfold Pandas.fillna. destruct value as [v|], ver;
    try destruct (Pandas.float_missing df); intros [= <-]; eauto.
Qed.

Lemma fillna_columns ver df value df' :
  Pandas.fillna ver df value = inr df' -> columns df' = columns df.
Proof.
  intros H. destruct (fillna_inr _ _ _ _ H) as [->|(v & _ & ->)]; reflexivity.
Qed.

(** However the dialogs are answered, [handle_missing_data] either waits
    at a dialog or hands back a frame with the same columns. *)
Lemma handle_missing_data_cases (df : DataFrame) (w : World) :
  (exists w', handle_missing_data df w = Blocked w') \/
  (exists df' w', handle_missing_data df w = Done df' w' /\
     columns df' = columns df).
Proof.
  destruct (inputs w) as [|a rest] eqn:Hin.
  - left. unfold handle_missing_data. run. eauto.
  - destruct (is_token a "drop") eqn:Hd.
    { apply is_token_true in Hd. subst a. right.
      rewrite (missing_drop df w rest Hin). eauto. }
    destruct (is_token a "fill") eqn:Hf.
    { apply is_token_true in Hf. subst a.
      destruct rest as [|v rest].
      - left. unfold handle_missing_data. run. eauto.
      - right. rewrite (missing_fill df w v rest Hin).
        destruct (Pandas.fillna (pandas w) df v) eqn:E; eauto.
        do 2 eexists. split; [reflexivity|]. eapply fillna_columns; eauto. }
    destruct (is_token a "cancel") eqn:Hc.
    { apply is_token_true in Hc. subst a. right.
      rewrite (missing_cancel df w rest Hin). eauto. }
    right. rewrite (missing_invalid df w a rest Hin Hd Hf Hc). eauto.
Qed.

(** The frame [fillna] builds when it fills. *)
Lemma filled_rows df v :
  Forall2
    (fun r r' =>
       label r' = label r /\
       Forall2 (fun c c' => c' = if isna c then CText v else c)
         (cells r) (cells r'))
    (rows df) (rows (Pandas.filled df v)).
Proof.
  cbn [Pandas.filled rows]. apply Forall2_map_r. intros r _.
  split; [reflexivity|]. cbn [Pandas.fill_row cells].
  apply Forall2_map_r. intros c _. destruct c; reflexivity.
Qed.

Lemma filled_no_na df v : has_na (Pandas.filled df v) = false.
Proof.
  apply has_na_false. cbn [Pandas.filled rows]. intros r Hr.
  apply in_map_iff in Hr. destruct Hr as (r0 & <- & _).
  apply row_has_na_false, fill_row_no_na.
Qed.

Lemma Forall2_same {A} (P : A -> A -> Prop) (l : list A) :
  (forall x, P x x) -> Forall2 P l l.
Proof. intros H. induction l; constructor; auto. Qed.

Lemma fillna_literal ver df v :
  Pandas.fillna ver df (Some v) =
  if fills ver df then inr (Pandas.filled df v)
  else inl ("Invalid value '" ++ v ++ "' for dtype 'float64'").
Proof.
  unfold Pandas.fillna, fills.
  destruct ver; try reflexivity. now destruct (Pandas.float_missing df).
Qed.

Lemma column_has_na_clean (rs : list row) (j : nat) :
  existsb row_has_na rs = false -> Pandas.column_has_na rs j = false.
Proof.
  unfold Pandas.column_has_na. induction rs as [|r rs IH]; simpl;
    [reflexivity|].
  intros H. apply orb_false_iff in H. destruct H as [Hr Hrs].
  rewrite IH by assumption. rewrite orb_false_r.
  destruct (nth_error (cells r) j) as [c|] eqn:E; [|reflexivity].
  apply nth_error_In in E. destruct (isna c) eqn:Hc; [|reflexivity].
  assert (row_has_na r = true)
    by (apply existsb_exists; exists c; auto).
  congruence.
Qed.

Lemma float_missing_clean (df : DataFrame) :
  has_na df = false -> Pandas.float_missing df = false.
Proof.
  intros H. unfold Pandas.float_missing. apply existsb_none.
  apply Forall_forall. intros p _.
  rewrite column_has_na_clean by exact H. apply andb_false_r.
Qed.

Lemma float_missing_has_na (df : DataFrame) :
  Pandas.float_missing df = true -> has_na df = true.
Proof.
  intros H. destruct (has_na df) eqn:E; [reflexivity|].
  now rewrite (float_missing_clean df E) in H.
Qed.

(** C2, as the script behaves: given a literal, the [fill] branch keeps
    the number of rows and of columns and leaves every cell that is not
    missing as it was.  Under pandas 1 and 2, and under pandas 3 when no
    [float64] column holds a missing marker, it writes the literal into
    every missing cell and reports success.  Under pandas 3, when a
    [float64] column holds a missing marker, [fillna] raises: the
    failure is logged and shown in an error box and the table still
    holds a missing marker. *)
Theorem fill_replaces_every_missing
    (df : DataFrame) (lit : string) (w : World) (rest : list (option string))
    (Hin : inputs w = Some "fill" :: Some lit :: rest) :
  exists df' w',
    handle_missing_data df w = Done df' w' /\
    inputs w' = rest /\
    n_rows df' = n_rows df /\
    n_cols df' = n_cols df /\
    Forall2
      (fun r r' =>
         label r' = label r /\
         Forall2 (fun c c' => c' = c \/ (c = CMissing /\ c' = CText lit))
           (cells r) (cells r'))
      (rows df) (rows df') /\
    ((pandas w <> P3 \/ Pandas.float_missing df = false) ->
       has_na df' = false /\
       Forall2
         (fun r r' =>
            Forall2 (fun c c' => c' = if isna c then CText lit else c)
              (cells r) (cells r'))
         (rows df) (rows df') /\
       events w' =
         (events w ++ ask_missing :: ask_fill :: fill_success (Some lit))%list) /\
    (pandas w = P3 -> Pandas.float_missing df = true ->
       has_na df' = true /\
       exists e,
         events w' = (events w ++ ask_missing :: ask_fill :: fill_error e)%list).
Proof.
  rewrite (missing_fill df w (Some lit) rest Hin), fillna_literal.
  destruct (fills (pandas w) df) eqn:Hfills.
  - do 2 eexists. split; [reflexivity|]. split; [apply inputs_after|].
    unfold n_rows, n_cols. cbn [Pandas.filled rows columns].
    split; [apply length_map|]. split; [reflexivity|]. split; [|split].
    + eapply Forall2_impl; [|apply (filled_rows df lit)].
      intros r r' [Hl Hc]. split; [exact Hl|].
      eapply Forall2_impl; [|exact Hc].
      intros c c' ->. destruct c; auto.
    + intros _. split; [apply filled_no_na|]. split.
      * eapply Forall2_impl; [|apply (filled_rows df lit)]. now intros r r' [_ Hc].
      * now rewrite events_after.
    + intros H3 Hf. unfold fills in Hfills. rewrite H3, Hf in Hfills.
      discriminate.
  - do 2 eexists. split; [reflexivity|]. split; [apply inputs_after|].
    split; [reflexivity|]. split; [reflexivity|]. split; [|split].
    + apply Forall2_same. intros r. split; [reflexivity|].
      apply Forall2_same. auto.
    + intros [H|H]; unfold fills in Hfills.
      * destruct (pandas w); try discriminate. now elim H.
      * destruct (pandas w); try discriminate. now rewrite H in Hfills.
    + intros _ Hf. split; [now apply float_missing_has_na|].
      eexists. now rewrite events_after.
Qed.

Lemma fill_replaces_every_missing_witness :
  exists df' w',
    handle_missing_data sample_df (world_on P2 [Some "fill"; Some "?"])
      = Done df' w' /\
    n_rows df' = 4%nat /\ has_na df' = false.
Proof.
  destruct (fill_replaces_every_missing sample_df "?"
              (world_on P2 [Some "fill"; Some "?"]) [] eq_refl)
    as (df' & w' & Hrun & _ & Hn & _ & _ & Hfill & _).
  exists df', w'. split; [exact Hrun|]. split; [exact Hn|].
  apply Hfill. left. discriminate.
Defined.

(** C2, as stated, fails under pandas 3 on the sample table, whose
    [age] column is [float64] and holds a missing value: the fill ends
    in the error box and the table still holds a missing marker. *)
Lemma fill_fails_on_float_column :
  exists df' w' e,
    handle_missing_data sample_df (world0 [Some "fill"; Some "?"])
      = Done df' w' /\
    has_na df' = true /\
    events w' = ask_missing :: ask_fill :: fill_error e.
Proof.
  rewrite (missing_fill sample_df (world0 [Some "fill"; Some "?"])
             (Some "?") [] eq_refl).
  do 3 eexists. split; [reflexivity|]. split; reflexivity.
Qed.

(** C3: the [drop] branch keeps exactly the rows that hold no missing
    marker, in their order; the table does not grow and holds no missing
    marker afterwards. *)
Theorem drop_removes_rows_with_missing
    (df : DataFrame) (w : World) (rest : list (option string))
    (Hin : inputs w = Some "drop" :: rest) :
  exists df' w',
    handle_missing_data df w = Done df' w' /\
    (forall r, In r (rows df') <->
               In r (rows df) /\ ~ In CMissing (cells r)) /\
    Subsequence (rows df') (rows df) /\
    (n_rows df' <= n_rows df)%nat /\
    has_na df' = false.
Proof.
  rewrite (missing_drop df w rest Hin).
  do 2 eexists. split; [reflexivity|].
  pose proof (filter_Subsequence (fun r => negb (row_has_na r)) (rows df))
    as Hs.
  split; [|split; [exact Hs|split]].
  - intros r. cbn [Pandas.dropna rows]. rewrite filter_In.
    rewrite negb_true_iff, row_has_na_false. reflexivity.
  - unfold n_rows. now apply Subsequence_length.
  - apply dropna_no_na.
Qed.

Lemma drop_removes_rows_with_missing_witness :
  exists df' w',
    handle_missing_data sample_df (world0 [Some "drop"]) = Done df' w' /\
    (n_rows df' <= 4)%nat /\ has_na df' = false.
Proof.
  destruct (drop_removes_rows_with_missing sample_df
              (world0 [Some "drop"]) [] eq_refl)
    as (df' & w' & Hrun & _ & _ & Hn & Hna).
  exists df', w'. split; [exact Hrun|]. split; [exact Hn|exact Hna].
Defined.

(** C4: neither [filter_data] nor any branch of [handle_missing_data]
    changes the column names; both return once their dialogs are
    answered. *)
Theorem columns_unchanged (df : DataFrame) (w : World) :
  (forall df' w', filter_data df w = Done df' w' -> columns df' = columns df) /\
  (forall df' w',
     handle_missing_data df w = Done df' w' -> columns df' = columns df) /\
  ((2 <= List.length (inputs w))%nat ->
     (exists df' w', filter_data df w = Done df' w') /\
     (exists df' w', handle_missing_data df w = Done df' w')).
Proof.
  split; [|split].
  - intros df' w' H.
    destruct (filter_data_cases df w) as [(w1 & H1)|(df1 & w1 & H1 & Hc & _)];
      congruence.
  - intros df' w' H.
    destruct (handle_missing_data_cases df w)
      as [(w1 & H1)|(df1 & w1 & H1 & Hc)]; congruence.
  - intros Hlen.
    destruct (inputs w) as [|a [|b rest]] eqn:Hin; simpl in Hlen; try lia.
    split.
    + destruct (Pandas.contains (columns df) a) eqn:Hc.
      * destruct (contains_Some _ _ Hc) as (c & -> & _).
        rewrite (filter_data_found df c b w rest Hin Hc). eauto.
      * rewrite (filter_data_missing_column df a w _ Hin Hc). eauto.
    + destruct (is_token a "drop") eqn:Hd.
      { apply is_token_true in Hd. subst a.
        rewrite (missing_drop df w _ Hin). eauto. }
      destruct (is_token a "fill") eqn:Hf.
      { apply is_token_true in Hf. subst a.
        rewrite (missing_fill df w b rest Hin).
        destruct (Pandas.fillna (pandas w) df b); eauto. }
      destruct (is_token a "cancel") eqn:Hcn.
      { apply is_token_true in Hcn. subst a.
        rewrite (missing_cancel df w _ Hin). eauto. }
      rewrite (missing_invalid df w a _ Hin Hd Hf Hcn). eauto.
Qed.

Lemma columns_unchanged_witness :
  exists df' w',
    filter_data sample_df (world0 [Some "age"; Some "31"]) = Done df' w' /\
    columns df' = ["name"; "age"; "city"].
Proof.
  destruct (columns_unchanged sample_df (world0 [Some "age"; Some "31"]))
    as (Hf & _ & Ht).
  destruct Ht as [(df' & w' & Hrun) _]; [simpl; lia|].
  exists df', w'. split; [exact Hrun|]. exact (Hf df' w' Hrun).
Defined.

(** C7, as the script behaves: any answer other than [drop] and [fill]
    leaves the table, the disk and the remaining answers alone; the
    answer [cancel] is acknowledged with an information line in the log,
    every other answer with a warning line in the log. *)
Theorem missing_other_input_noop
    (df : DataFrame) (a : option string) (w : World)
    (rest : list (option string))
    (Hin : inputs w = a :: rest)
    (Hdrop : a <> Some "drop") (Hfill : a <> Some "fill") :
  exists w',
    handle_missing_data df w = Done df w' /\
    inputs w' = rest /\ files w' = files w /\
    events w' =
      (events w ++
       [ask_missing;
        if is_token a "cancel"
        then Log INFO "Missing data handling canceled."
        else Log WARNING "Invalid input for missing data handling."])%list.
Proof.
  apply is_token_false in Hdrop, Hfill.
  destruct (is_token a "cancel") eqn:Hc.
  - apply is_token_true in Hc. subst a.
    rewrite (missing_cancel df w rest Hin). eexists.
    split; [reflexivity|].
    rewrite inputs_after, files_after, events_after. auto.
  - rewrite (missing_invalid df w a rest Hin Hdrop Hfill Hc). eexists.
    split; [reflexivity|].
    rewrite inputs_after, files_after, events_after. auto.
Qed.

Lemma missing_other_input_noop_witness :
  exists w',
    handle_missing_data sample_df (world0 [Some "purge"]) = Done sample_df w' /\
    existsb is_warning (events w') = true.
Proof.
  destruct (missing_other_input_noop sample_df (Some "purge")
              (world0 [Some "purge"]) [] eq_refl)
    as (w' & Hrun & _ & _ & Hev); [discriminate|discriminate|].
  exists w'. split; [exact Hrun|]. rewrite Hev. reflexivity.
Defined.

(** C7, as stated, fails at the answer [cancel]: the table is left
    alone, but no warning is issued, neither in the log nor as a box. *)
Lemma missing_cancel_no_warning :
  Some "cancel" <> Some "drop" /\ Some "cancel" <> Some "fill" /\
  exists w',
    handle_missing_data sample_df (world0 [Some "cancel"])
      = Done sample_df w' /\
    existsb is_warning (events w') = false.
Proof.
  split; [discriminate|]. split; [discriminate|].
  rewrite (missing_cancel sample_df (world0 [Some "cancel"]) [] eq_refl).
  eexists. split; [reflexivity|]. reflexivity.
Qed.

(** ** The loops *)

Lemma consumes_ret {A} (a : A) : consumes (ret a).
Proof. intros w x w' [= _ <-]. now exists []. Qed.

Lemma consumes_emit e : consumes (emit e).
Proof. intros w x w'. rewrite emit_run. intros [= _ <-]. now exists []. Qed.

Lemma consumes_logging l msg : consumes (logging l msg).
Proof. intros w x w'. rewrite logging_run. intros [= _ <-]. now exists []. Qed.

Lemma consumes_messagebox b t msg : consumes (messagebox b t msg).
Proof.
  intros w x w'. rewrite messagebox_run. intros [= _ <-]. now exists [].
Qed.

Lemma consumes_askstring t p : consumes (askstring t p).
Proof.
  intros w x w'. destruct (inputs w) as [|a rest] eqn:Hin.
  - now rewrite (askstring_blocked t p w Hin).
  - rewrite (askstring_run t p w a rest Hin). intros [= _ <-].
    exists [a]. now rewrite inputs_after.
Qed.

Lemma consumes_askopenfilename : consumes askopenfilename.
Proof.
  intros w x w'. destruct (inputs w) as [|a rest] eqn:Hin.
  - now rewrite (askopenfilename_blocked w Hin).
  - rewrite (askopenfilename_run w a rest Hin). intros [= _ <-].
    exists [a]. now rewrite inputs_after.
Qed.

Lemma consumes_asksaveasfilename : consumes asksaveasfilename.
Proof.
  intros w x w'. destruct (inputs w) as [|a rest] eqn:Hin.
  - now rewrite (asksaveasfilename_blocked w Hin).
  - rewrite (asksaveasfilename_run w a rest Hin). intros [= _ <-].
    exists [a]. now rewrite inputs_after.
Qed.

Lemma consumes_pd_read_csv path : consumes (pd_read_csv path).
Proof.
  intros w x w'. rewrite pd_read_csv_run. intros [= _ <-]. now exists [].
Qed.

Lemma consumes_df_to_csv df path : consumes (df_to_csv df path).
Proof.
  intros w x w'.
  destruct (existsb (String.eqb path) (locked w)) eqn:E.
  - rewrite (df_to_csv_locked df path w E). intros [= _ <-]. now exists [].
  - rewrite (df_to_csv_run df path w E). intros [= _ <-]. now exists [].
Qed.

Lemma consumes_pandas_version : consumes pandas_version.
Proof.
  intros w x w'. rewrite pandas_version_run. intros [= _ <-]. now exists [].
Qed.

Lemma consumes_library_call c df : consumes (library_call c df).
Proof.
  intros w x w'. rewrite library_call_run. intros [= _ <-]. now exists [].
Qed.

Lemma consumes_out_of_fuel {A} : consumes (@out_of_fuel A).
Proof. intros w x w'. discriminate. Qed.

Lemma consumes_bind {A B} (m : M A) (k : A -> M B) :
  consumes m -> (forall a, consumes (k a)) -> consumes (x <- m ;; k x).
Proof.
  intros Hm Hk w b w'. rewrite bind_run.
  destruct (m w) as [a w1| |] eqn:E; try discriminate.
  intros H. destruct (Hm _ _ _ E) as (p1 & ->).
  destruct (Hk a _ _ _ H) as (p2 & ->).
  exists (p1 ++ p2)%list. now rewrite app_assoc.
Qed.

(** Takes a handler apart along its binds and branches. *)
Ltac consume :=
  repeat first
    [ apply consumes_ret | apply consumes_emit | apply consumes_logging
    | apply consumes_messagebox | apply consumes_askstring
    | apply consumes_askopenfilename | apply consumes_asksaveasfilename
    | apply consumes_pd_read_csv | apply consumes_df_to_csv
    | apply consumes_pandas_version | apply consumes_library_call
    | apply consumes_out_of_fuel
    | assumption
    | apply consumes_bind; [|intros ?]
    | match goal with
      | |- consumes (if ?b then _ else _) => destruct b
      | |- consumes (match ?x with _ => _ end) => destruct x
      end ].

Lemma consumes_handle_missing_data df : consumes (handle_missing_data df).
Proof. unfold handle_missing_data. consume. Qed.

Lemma consumes_filter_data df : consumes (filter_data df).
Proof. unfold filter_data. consume. Qed.

Lemma consumes_save_csv df : consumes (save_csv df).
Proof. unfold save_csv. consume. Qed.

Lemma consumes_load_csv : consumes load_csv.
Proof. unfold load_csv. consume. Qed.

Lemma consumes_display_data_info df : consumes (display_data_info df).
Proof. unfold display_data_info. consume. Qed.

Lemma consumes_describe_data df : consumes (describe_data df).
Proof. unfold describe_data. consume. Qed.

Lemma consumes_user_plot_selection fuel df :
  consumes (user_plot_selection fuel df).
Proof.
  induction fuel as [|fuel IH]; cbn [user_plot_selection].
  - apply consumes_out_of_fuel.
  - unfold plot_simple, plot_pairplot, plot_histogram, plot_heatmap, charted. consume.
Qed.

Lemma finishes_ret {A} n (a : A) : finishes n (ret a).
Proof. intros w _. discriminate. Qed.

Lemma finishes_emit n e : finishes n (emit e).
Proof. intros w _. now rewrite emit_run. Qed.

Lemma finishes_logging n l msg : finishes n (logging l msg).
Proof. intros w _. now rewrite logging_run. Qed.

Lemma finishes_messagebox n b t msg : finishes n (messagebox b t msg).
Proof. intros w _. now rewrite messagebox_run. Qed.

Lemma finishes_askstring n t p : finishes n (askstring t p).
Proof.
  intros w _. destruct (inputs w) as [|a rest] eqn:Hin.
  - now rewrite (askstring_blocked t p w Hin).
  - now rewrite (askstring_run t p w a rest Hin).
Qed.

Lemma finishes_askopenfilename n : finishes n askopenfilename.
Proof.
  intros w _. destruct (inputs w) as [|a rest] eqn:Hin.
  - now rewrite (askopenfilename_blocked w Hin).
  - now rewrite (askopenfilename_run w a rest Hin).
Qed.

Lemma finishes_asksaveasfilename n : finishes n asksaveasfilename.
Proof.
  intros w _. destruct (inputs w) as [|a rest] eqn:Hin.
  - now rewrite (asksaveasfilename_blocked w Hin).
  - now rewrite (asksaveasfilename_run w a rest Hin).
Qed.

Lemma finishes_pd_read_csv n path : finishes n (pd_read_csv path).
Proof. intros w _. now rewrite pd_read_csv_run. Qed.

Lemma finishes_df_to_csv n df path : finishes n (df_to_csv df path).
Proof.
  intros w _.
  destruct (existsb (String.eqb path) (locked w)) eqn:E.
  - now rewrite (df_to_csv_locked df path w E).
  - now rewrite (df_to_csv_run df path w E).
Qed.

Lemma finishes_pandas_version n : finishes n pandas_version.
Proof. intros w _. now rewrite pandas_version_run. Qed.

Lemma finishes_library_call n c df : finishes n (library_call c df).
Proof. intros w _. now rewrite library_call_run. Qed.

Lemma finishes_bind {A B} n (m : M A) (k : A -> M B) :
  finishes n m -> consumes m -> (forall a, finishes n (k a)) ->
  finishes n (x <- m ;; k x).
Proof.
  intros Hm Hc Hk w Hlen. rewrite bind_run.
  destruct (m w) as [a w1| |] eqn:E; try discriminate.
  - apply Hk. destruct (Hc _ _ _ E) as (pre & Hpre).
    rewrite Hpre, length_app in Hlen. lia.
  - now apply Hm in E.
Qed.

Lemma finishes_ask_bind {B} n t p (k : option string -> M B) :
  (forall a, finishes n (k a)) ->
  finishes (S n) (a <- askstring t p ;; k a).
Proof.
  intros Hk w Hlen. rewrite bind_run.
  destruct (inputs w) as [|a rest] eqn:Hin.
  - now rewrite (askstring_blocked t p w Hin).
  - rewrite (askstring_run t p w a rest Hin). apply Hk.
    rewrite inputs_after. simpl in Hlen. lia.
Qed.

Ltac finish :=
  repeat first
    [ apply finishes_ret | apply finishes_emit | apply finishes_logging
    | apply finishes_messagebox | apply finishes_askstring
    | apply finishes_askopenfilename | apply finishes_asksaveasfilename
    | apply finishes_pd_read_csv | apply finishes_df_to_csv
    | apply finishes_pandas_version | apply finishes_library_call
    | assumption
    | apply finishes_bind; [| solve [consume] | intros ?]
    | match goal with
      | |- finishes _ (if ?b then _ else _) => destruct b
      | |- finishes _ (match ?x with _ => _ end) => destruct x
      end ].

Lemma finishes_handle_missing_data n df : finishes n (handle_missing_data df).
Proof. unfold handle_missing_data. finish. Qed.

Lemma finishes_filter_data n df : finishes n (filter_data df).
Proof. unfold filter_data. finish. Qed.

Lemma finishes_save_csv n df : finishes n (save_csv df).
Proof. unfold save_csv. finish. Qed.

Lemma finishes_load_csv n : finishes n load_csv.
Proof. unfold load_csv. finish. Qed.

Lemma finishes_user_plot_selection fuel df :
  finishes fuel (user_plot_selection fuel df).
Proof.
  induction fuel as [|fuel IH]; cbn [user_plot_selection].
  - intros w Hlen. lia.
  - apply finishes_ask_bind. intros a.
    unfold plot_simple, plot_pairplot, plot_histogram, plot_heatmap, charted. finish.
Qed.

Lemma finishes_main_loop fuel df : finishes fuel (main_loop fuel df).
Proof.
  revert df. induction fuel as [|fuel IH]; intros df; cbn [main_loop].
  - intros w Hlen. lia.
  - apply finishes_ask_bind. intros a.
    repeat match goal with
           | |- finishes _ (if ?b then _ else _) => destruct b
           end.
    + apply finishes_bind; [|apply consumes_display_data_info|auto].
      unfold display_data_info. finish.
    + apply finishes_bind; [|apply consumes_describe_data|auto].
      unfold describe_data. finish.
    + apply finishes_bind;
        [apply finishes_handle_missing_data
        |apply consumes_handle_missing_data|auto].
    + apply finishes_bind;
        [apply finishes_filter_data|apply consumes_filter_data|auto].
    + apply finishes_bind;
        [apply finishes_save_csv|apply consumes_save_csv|auto].
    + apply finishes_bind;
        [apply finishes_user_plot_selection
        |apply consumes_user_plot_selection|auto].
    + apply finishes_ret.
    + apply finishes_bind; [apply finishes_messagebox| |auto].
      apply consumes_messagebox.
Qed.

(** With more budget than answers, the session never stops for lack of
    budget: it ends, or it waits at a dialog. *)
Lemma main_total (fuel : nat) (w : World) :
  (List.length (inputs w) < fuel)%nat -> main fuel w <> OutOfFuel.
Proof.
  revert w. change (finishes fuel (main fuel)). unfold main.
  apply finishes_bind; [apply finishes_logging|apply consumes_logging|].
  intros _.
  apply finishes_bind; [apply finishes_load_csv|apply consumes_load_csv|].
  intros [df0|].
  - apply finishes_bind;
      [apply finishes_main_loop|idtac|intros df'; finish].
    clear. revert df0. induction fuel as [|fuel IH]; intros df;
      cbn [main_loop]; [apply consumes_out_of_fuel|].
    pose proof consumes_display_data_info. pose proof consumes_describe_data.
    pose proof consumes_handle_missing_data. pose proof consumes_filter_data.
    pose proof consumes_save_csv. pose proof consumes_user_plot_selection.
    consume; auto.
  - finish.
Qed.

Lemma recognized_false (tokens : list string) (a : option string) :
  recognized tokens a = false ->
  forall t, In t tokens -> is_token a t = false.
Proof.
  unfold recognized. intros H t Ht.
  destruct (is_token a t) eqn:E; [|reflexivity].
  assert (existsb (is_token a) tokens = true)
    by (apply existsb_exists; eauto).
  congruence.
Qed.

Lemma main_loop_invalid fuel df a w rest :
  inputs w = a :: rest ->
  recognized actions a = false ->
  main_loop (S fuel) df w =
  main_loop fuel df (after w rest [ask_action; warn_action]).
Proof.
  intros Hin Hr. pose proof (recognized_false _ _ Hr) as Ht.
  cbn [main_loop]. run.
  rewrite !Ht by (unfold actions; simpl; tauto). run. reflexivity.
Qed.

Lemma user_plot_selection_invalid fuel df a w rest :
  inputs w = a :: rest ->
  recognized plot_types a = false ->
  user_plot_selection (S fuel) df w =
  user_plot_selection fuel df (after w rest [ask_plot; warn_plot]).
Proof.
  intros Hin Hr. pose proof (recognized_false _ _ Hr) as Ht.
  cbn [user_plot_selection]. run.
  rewrite !Ht by (unfold plot_types; simpl; tauto). run. reflexivity.
Qed.

Lemma main_loop_waits fuel df w :
  inputs w = [] ->
  main_loop (S fuel) df w = Blocked (after w [] [ask_action]).
Proof. intros Hin. cbn [main_loop]. run. reflexivity. Qed.

Lemma user_plot_selection_waits fuel df w :
  inputs w = [] ->
  user_plot_selection (S fuel) df w = Blocked (after w [] [ask_plot]).
Proof. intros Hin. cbn [user_plot_selection]. run. reflexivity. Qed.

(** C6: an answer that is none of the tokens of the prompt it is given
    at changes neither the table nor the disk; the loop shows its
    warning and goes round again with the same table, so that the same
    prompt is the next thing the user sees. *)
Theorem unrecognized_token_reprompts
    (fuel : nat) (df : DataFrame) (a : option string) (w : World)
    (rest : list (option string))
    (Hin : inputs w = a :: rest) :
  (recognized actions a = false ->
     main_loop (S fuel) df w =
       main_loop fuel df (after w rest [ask_action; warn_action]) /\
     files (after w rest [ask_action; warn_action]) = files w /\
     (rest = [] ->
        main_loop (S (S fuel)) df w =
          Blocked (after w [] [ask_action; warn_action; ask_action]))) /\
  (recognized plot_types a = false ->
     user_plot_selection (S fuel) df w =
       user_plot_selection fuel df (after w rest [ask_plot; warn_plot]) /\
     files (after w rest [ask_plot; warn_plot]) = files w /\
     (rest = [] ->
        user_plot_selection (S (S fuel)) df w =
          Blocked (after w [] [ask_plot; warn_plot; ask_plot]))).
Proof.
  split; intros Hr.
  - split; [now apply (main_loop_invalid fuel df a)|].
    split; [apply files_after|].
    intros ->. rewrite (main_loop_invalid _ _ _ _ _ Hin Hr).
    rewrite main_loop_waits by apply inputs_after.
    now rewrite after_after.
  - split; [now apply (user_plot_selection_invalid fuel df a)|].
    split; [apply files_after|].
    intros ->. rewrite (user_plot_selection_invalid _ _ _ _ _ Hin Hr).
    rewrite user_plot_selection_waits by apply inputs_after.
    now rewrite after_after.
Qed.

Lemma unrecognized_token_reprompts_witness :
  main_loop 2 sample_df (world0 [Some "delete"]) =
  Blocked (after (world0 [Some "delete"]) []
             [ask_action; warn_action; ask_action]).
Proof.
  destruct (unrecognized_token_reprompts 0 sample_df (Some "delete")
              (world0 [Some "delete"]) [] eq_refl) as [H _].
  destruct (H eq_refl) as (_ & _ & Hb). exact (Hb eq_refl).
Defined.

Lemma stops_bind {A B} (m : M A) (k : A -> M B) :
  consumes m -> (forall a, stops_at_exit (k a)) ->
  stops_at_exit (x <- m ;; k x).
Proof.
  intros Hm Hk w b w'. rewrite bind_run.
  destruct (m w) as [a w1| |] eqn:E; try discriminate.
  intros H. destruct (Hm _ _ _ E) as (p1 & ->).
  destruct (Hk a _ _ _ H) as (p2 & ->).
  exists (p1 ++ p2)%list. now rewrite app_assoc.
Qed.

Lemma stops_ask_bind {B} t p (k : option string -> M B) :
  (forall a, is_token a "exit" = false -> stops_at_exit (k a)) ->
  (forall w, exists x, k (Some "exit") w = Done x w) ->
  stops_at_exit (a <- askstring t p ;; k a).
Proof.
  intros Hk Hexit w b w'. rewrite bind_run.
  destruct (inputs w) as [|a rest] eqn:Hin.
  - now rewrite (askstring_blocked t p w Hin).
  - rewrite (askstring_run t p w a rest Hin).
    destruct (is_token a "exit") eqn:E.
    + apply is_token_true in E. subst a.
      destruct (Hexit (after w rest [Asked t p])) as (x & ->).
      intros [= _ <-]. exists []. now rewrite inputs_after.
    + intros H. destruct (Hk a E _ _ _ H) as (pre & Hpre).
      rewrite inputs_after in Hpre. exists (a :: pre). now rewrite Hpre.
Qed.

Lemma stops_main_loop fuel df : stops_at_exit (main_loop fuel df).
Proof.
  revert df. induction fuel as [|fuel IH]; intros df; cbn [main_loop].
  - intros w a w'. discriminate.
  - apply stops_ask_bind.
    + intros a Ha. rewrite Ha.
      repeat match goal with
             | |- stops_at_exit (if ?b then _ else _) => destruct b
             end;
        apply stops_bind; auto;
        first [ apply consumes_display_data_info
              | apply consumes_describe_data
              | apply consumes_handle_missing_data
              | apply consumes_filter_data
              | apply consumes_save_csv
              | apply consumes_user_plot_selection
              | apply consumes_messagebox ].
    + intros w. exists df. reflexivity.
Qed.

Lemma main_loop_exit fuel df w rest :
  inputs w = Some "exit" :: rest ->
  main_loop (S fuel) df w = Done df (after w rest [ask_action]).
Proof. intros Hin. cbn [main_loop]. run. reflexivity. Qed.

(** C10: a dismissed action dialog is handled as any unrecognized
    action: the warning box, the same table, the prompt again.  The
    loop returns on the answer [exit], and whenever it returns, [exit]
    is the last answer it read. *)
Theorem cancel_reprompts_exit_ends (fuel : nat) (df : DataFrame) (w : World) :
  (forall rest, inputs w = None :: rest ->
     main_loop (S fuel) df w =
       main_loop fuel df (after w rest [ask_action; warn_action])) /\
  (forall rest, inputs w = Some "exit" :: rest ->
     main_loop (S fuel) df w = Done df (after w rest [ask_action])) /\
  (forall df' w', main_loop fuel df w = Done df' w' ->
     exists pre, inputs w = (pre ++ Some "exit" :: inputs w')%list).
Proof.
  split; [|split].
  - intros rest Hin. now apply (main_loop_invalid fuel df None).
  - intros rest Hin. now apply main_loop_exit.
  - intros df' w'. apply stops_main_loop.
Qed.

Lemma cancel_reprompts_exit_ends_witness :
  exists df' w',
    main_loop 3 sample_df (world0 [None; Some "exit"; Some "later"])
      = Done df' w' /\
    df' = sample_df /\ inputs w' = [Some "later"].
Proof.
  destruct (cancel_reprompts_exit_ends 2 sample_df
              (world0 [None; Some "exit"; Some "later"])) as (Hc & _ & _).
  rewrite (Hc _ eq_refl).
  destruct (cancel_reprompts_exit_ends 1 sample_df
              (after (world0 [None; Some "exit"; Some "later"])
                 [Some "exit"; Some "later"] [ask_action; warn_action]))
    as (_ & He & _).
  rewrite (He [Some "later"] (inputs_after _ _ _)).
  do 2 eexists. split; [reflexivity|]. split; [reflexivity|].
  apply inputs_after.
Defined.

(** ** Loading and saving *)

Lemma load_csv_cancelled w a rest :
  inputs w = a :: rest ->
  nonempty (path_of a) = false ->
  load_csv w =
  Done None (after w rest [AskedOpenFile; Log INFO "No file selected."]).
Proof.
  intros Hin Hp. unfold load_csv. run. rewrite Hp. run. reflexivity.
Qed.

Lemma load_csv_failed w a rest e :
  inputs w = a :: rest ->
  nonempty (path_of a) = true ->
  disk_read (pandas w) (path_of a) (files w) = inl e ->
  load_csv w =
  Done None
    (after w rest
       [AskedOpenFile; Log INFO ("File selected: " ++ path_of a);
        Log ERROR ("Error loading file: " ++ e);
        MessageBox BoxError "Error" ("Could not load file: " ++ e)]).
Proof.
  intros Hin Hp Hr. unfold load_csv. run. rewrite Hp. run. rewrite Hr. run.
  reflexivity.
Qed.

Lemma load_csv_loaded w a rest df :
  inputs w = a :: rest ->
  nonempty (path_of a) = true ->
  disk_read (pandas w) (path_of a) (files w) = inr df ->
  load_csv w =
  Done (Some df)
    (after w rest
       [AskedOpenFile; Log INFO ("File selected: " ++ path_of a);
        Log INFO ("File loaded successfully. Columns: "
                  ++ repr_names (columns df))]).
Proof.
  intros Hin Hp Hr. unfold load_csv. run. rewrite Hp. run. rewrite Hr. run.
  reflexivity.
Qed.


(** C8: when the file dialog is dismissed, or the chosen file cannot be
    read, [main] returns without a table whatever the iteration budget:
    no action prompt is shown, no further answer is read, and the trace
    closes with the line that the application ended. *)
Theorem no_table_no_session
    (fuel : nat) (w : World) (a : option string) (rest : list (option string))
    (Hin : inputs w = a :: rest) :
  (nonempty (path_of a) = false ->
     main fuel w =
     Done None
       (after w rest
          [Log INFO "Application started."; AskedOpenFile;
           Log INFO "No file selected."; Log INFO "Application ended."])) /\
  (forall e,
     nonempty (path_of a) = true ->
     disk_read (pandas w) (path_of a) (files w) = inl e ->
     main fuel w =
     Done None
       (after w rest
          [Log INFO "Application started."; AskedOpenFile;
           Log INFO ("File selected: " ++ path_of a);
           Log ERROR ("Error loading file: " ++ e);
           MessageBox BoxError "Error" ("Could not load file: " ++ e);
           Log INFO "Application ended."])).
Proof.
  split.
  - intros Hp. unfold main. run.
    rewrite (load_csv_cancelled _ a rest) by (rewrite ?inputs_after; auto).
    run. reflexivity.
  - intros e Hp Hr. unfold main. run.
    rewrite (load_csv_failed _ a rest e)
      by (rewrite ?inputs_after, ?files_after, ?pandas_after; auto).
    run. reflexivity.
Qed.

Lemma no_table_no_session_witness :
  main 0 (world0 [None; Some "info"]) =
  Done None
    (after (world0 [None; Some "info"]) [Some "info"]
       [Log INFO "Application started."; AskedOpenFile;
        Log INFO "No file selected."; Log INFO "Application ended."]) /\
  exists e w',
    main 0 (world0 [Some "absent.csv"; Some "info"]) = Done None w' /\
    inputs w' = [Some "info"] /\
    In (Log ERROR ("Error loading file: " ++ e)) (events w').
Proof.
  split.
  - destruct (no_table_no_session 0 (world0 [None; Some "info"]) None
                [Some "info"] eq_refl) as [H _].
    exact (H eq_refl).
  - destruct (no_table_no_session 0 (world0 [Some "absent.csv"; Some "info"])
                (Some "absent.csv") [Some "info"] eq_refl) as [_ H].
    eexists. eexists. rewrite (H _ eq_refl eq_refl).
    split; [reflexivity|]. split; [apply inputs_after|].
    rewrite events_after. simpl. auto.
Defined.

(** * Further properties of the handlers *)

(** ** Filters compose *)

Lemma filter_twice {A} (f g : A -> bool) (l : list A) :
  filter f (filter g l) = filter (fun x => f x && g x) l.
Proof.
  induction l as [|x l IH]; simpl; [reflexivity|].
  destruct (g x); simpl; rewrite ?IH, ?andb_true_r, ?andb_false_r; reflexivity.
Qed.

Lemma filter_data_filtered df c value w rest :
  inputs w = Some c :: value :: rest ->
  In c (columns df) ->
  filter_data df w =
  Done (filtered df c value)
    (after w rest
       [ask_filter_column; ask_filter_value c;
        Log INFO ("Data filtered on " ++ c ++ " = " ++ fmt value ++ ".");
        PrintFrame (filtered df c value)]).
Proof.
  intros Hin Hc. apply contains_In in Hc.
  exact (filter_data_found df c value w rest Hin Hc).
Qed.

Lemma value_at_filtered df c value c' r :
  value_at (filtered df c value) c' r = value_at df c' r.
Proof. reflexivity. Qed.

Lemma filtered_twice df c1 v1 c2 v2 :
  filtered (filtered df c1 v1) c2 v2 =
  mkDF (columns df) (dtypes df)
    (filter (fun r => Pandas.eq_scalar v2 (value_at df c2 r)
                      && Pandas.eq_scalar v1 (value_at df c1 r)) (rows df)).
Proof.
  unfold filtered. cbn [columns rows]. f_equal. rewrite filter_twice.
  apply filter_ext. intros r. reflexivity.
Qed.

(** Filtering a second time by the same column and value changes
    nothing: the second pass keeps every row of the first. *)
Theorem filter_data_idempotent
    (df : DataFrame) (c : string) (value : option string)
    (w : World) (rest : list (option string))
    (Hin : inputs w = Some c :: value :: Some c :: value :: rest)
    (Hc : In c (columns df)) :
  exists df1 w1 w2,
    filter_data df w = Done df1 w1 /\
    filter_data df1 w1 = Done df1 w2 /\
    inputs w2 = rest.
Proof.
  rewrite (filter_data_filtered df c value w _ Hin Hc).
  do 3 eexists. split; [reflexivity|].
  rewrite (filter_data_filtered (filtered df c value) c value _ rest)
    by (rewrite ?inputs_after; auto).
  split; [|now rewrite inputs_after].
  assert (E : filtered (filtered df c value) c value = filtered df c value).
  { rewrite filtered_twice. unfold filtered. f_equal.
    apply filter_ext. intros r. apply andb_diag. }
  rewrite E. rewrite after_after. reflexivity.
Qed.

Lemma filter_data_idempotent_witness :
  exists df1 w1 w2,
    filter_data sample_df
      (world0 [Some "city"; Some "Oslo"; Some "city"; Some "Oslo"])
      = Done df1 w1 /\
    filter_data df1 w1 = Done df1 w2.
Proof.
  destruct (filter_data_idempotent sample_df "city" (Some "Oslo")
              (world0 [Some "city"; Some "Oslo"; Some "city"; Some "Oslo"])
              [] eq_refl) as (df1 & w1 & w2 & H1 & H2 & _).
  - simpl. auto.
  - exists df1, w1, w2. split; assumption.
Defined.

(** Two filters give the same table in either order. *)
Theorem filter_data_commutes
    (df : DataFrame) (c1 c2 : string) (v1 v2 : option string)
    (w w' : World) (rest rest' : list (option string))
    (Hin : inputs w = Some c1 :: v1 :: Some c2 :: v2 :: rest)
    (Hin' : inputs w' = Some c2 :: v2 :: Some c1 :: v1 :: rest')
    (Hc1 : In c1 (columns df)) (Hc2 : In c2 (columns df)) :
  exists dfa wa dfb wb final wf wf',
    filter_data df w = Done dfa wa /\ filter_data dfa wa = Done final wf /\
    filter_data df w' = Done dfb wb /\ filter_data dfb wb = Done final wf'.
Proof.
  rewrite (filter_data_filtered df c1 v1 w _ Hin Hc1).
  rewrite (filter_data_filtered df c2 v2 w' _ Hin' Hc2).
  exists (filtered df c1 v1). eexists. exists (filtered df c2 v2). eexists.
  exists (filtered (filtered df c1 v1) c2 v2). do 2 eexists.
  split; [reflexivity|].
  rewrite (filter_data_filtered (filtered df c1 v1) c2 v2 _ rest)
    by (rewrite ?inputs_after; auto).
  split; [reflexivity|]. split; [reflexivity|].
  rewrite (filter_data_filtered (filtered df c2 v2) c1 v1 _ rest')
    by (rewrite ?inputs_after; auto).
  assert (E : filtered (filtered df c2 v2) c1 v1
              = filtered (filtered df c1 v1) c2 v2).
  { rewrite !filtered_twice. f_equal. apply filter_ext. intros r.
    apply andb_comm. }
  rewrite E. reflexivity.
Qed.

Lemma filter_data_commutes_witness :
  exists final wf wf',
    (exists dfa wa,
       filter_data sample_df
         (world0 [Some "city"; Some "Oslo"; Some "name"; Some "dee"])
         = Done dfa wa /\ filter_data dfa wa = Done final wf) /\
    (exists dfb wb,
       filter_data sample_df
         (world0 [Some "name"; Some "dee"; Some "city"; Some "Oslo"])
         = Done dfb wb /\ filter_data dfb wb = Done final wf').
Proof.
  destruct (filter_data_commutes sample_df "city" "name"
              (Some "Oslo") (Some "dee")
              (world0 [Some "city"; Some "Oslo"; Some "name"; Some "dee"])
              (world0 [Some "name"; Some "dee"; Some "city"; Some "Oslo"])
              [] [] eq_refl eq_refl)
    as (dfa & wa & dfb & wb & final & wf & wf' & H1 & H2 & H3 & H4).
  - simpl. auto.
  - simpl. auto.
  - exists final, wf, wf'. split; eauto.
Defined.

(** A column that holds no text (numbers, booleans, missing values)
    never matches what the dialog hands in: the filter returns the
    table emptied of its rows. *)
Theorem filter_data_non_text_column
    (df : DataFrame) (c : string) (value : option string)
    (w : World) (rest : list (option string))
    (Hin : inputs w = Some c :: value :: rest)
    (Hc : In c (columns df))
    (Hcol : forall r, In r (rows df) -> is_text (value_at df c r) = false) :
  exists w', filter_data df w = Done (mkDF (columns df) (dtypes df) []) w'.
Proof.
  rewrite (filter_data_filtered df c value w _ Hin Hc).
  eexists. unfold filtered.
  assert (E : filter (fun r => Pandas.eq_scalar value (value_at df c r))
                (rows df) = []).
  { induction (rows df) as [|r rs IH]; simpl; [reflexivity|].
    specialize (Hcol r (or_introl eq_refl)) as Hr.
    destruct (value_at df c r); try discriminate; simpl;
      apply IH; intros r' Hr'; apply Hcol; now right. }
  rewrite E. reflexivity.
Qed.

Lemma filter_data_non_text_column_witness :
  exists w',
    filter_data sample_df (world0 [Some "age"; Some "31"])
      = Done (mkDF ["name"; "age"; "city"] [Object; Float64; Object] []) w'.
Proof.
  apply (filter_data_non_text_column sample_df "age" (Some "31")
           (world0 [Some "age"; Some "31"]) [] eq_refl).
  - simpl. auto.
  - intros r Hr. simpl in Hr.
    repeat (destruct Hr as [<-|Hr]; [reflexivity|]). contradiction.
Defined.

(** Dismissing the value dialog compares every cell with [None]: the
    filter returns the table emptied of its rows. *)
Theorem filter_data_dismissed_value_empties
    (df : DataFrame) (c : string) (w : World) (rest : list (option string))
    (Hin : inputs w = Some c :: None :: rest)
    (Hc : In c (columns df)) :
  exists w',
    filter_data df w = Done (mkDF (columns df) (dtypes df) []) w' /\
    inputs w' = rest /\ files w' = files w.
Proof.
  rewrite (filter_data_filtered df c None w _ Hin Hc).
  eexists. unfold filtered.
  assert (E : filter (fun r => Pandas.eq_scalar None (value_at df c r))
                (rows df) = []).
  { induction (rows df) as [|r rs IH]; simpl; [reflexivity|].
    now rewrite eq_scalar_None. }
  rewrite E. split; [reflexivity|]. now rewrite inputs_after, files_after.
Qed.

Lemma filter_data_dismissed_value_empties_witness :
  exists w',
    filter_data sample_df (world0 [Some "name"; None])
      = Done (mkDF ["name"; "age"; "city"] [Object; Float64; Object] []) w'.
Proof.
  destruct (filter_data_dismissed_value_empties sample_df "name"
              (world0 [Some "name"; None]) [] eq_refl) as (w' & H & _).
  - simpl. auto.
  - exists w'. exact H.
Defined.

(** ** Cleaning composes *)

Lemma fill_cells_clean (v : string) (cs : list cell) :
  existsb isna cs = false -> map (Pandas.fill_cell v) cs = cs.
Proof.
  induction cs as [|c cs IH]; simpl; [reflexivity|].
  intros H. apply orb_false_iff in H. destruct H as [Hc Hcs].
  rewrite IH by assumption. destruct c; try reflexivity. discriminate.
Qed.

Lemma fill_rows_clean (v : string) (rs : list row) :
  existsb row_has_na rs = false -> map (Pandas.fill_row v) rs = rs.
Proof.
  induction rs as [|r rs IH]; simpl; [reflexivity|].
  intros H. apply orb_false_iff in H. destruct H as [Hr Hrs].
  rewrite IH by assumption. f_equal. destruct r as [l cs].
  unfold Pandas.fill_row. cbn [label cells].
  now rewrite fill_cells_clean.
Qed.

Lemma drop_rows_clean (rs : list row) :
  existsb row_has_na rs = false ->
  filter (fun r => negb (row_has_na r)) rs = rs.
Proof.
  induction rs as [|r rs IH]; simpl; [reflexivity|].
  intros H. apply orb_false_iff in H. destruct H as [Hr Hrs].
  now rewrite Hr, IH.
Qed.

Lemma dropna_clean (df : DataFrame) :
  has_na df = false -> Pandas.dropna df = df.
Proof.
  intros H. destruct df as [cols ts rs]. unfold Pandas.dropna.
  cbn [columns dtypes rows]. now rewrite drop_rows_clean.
Qed.

Lemma widen_clean (rs : list row) (j : nat) (ts : list dtype) :
  existsb row_has_na rs = false ->
  map (Pandas.widen rs) (Pandas.indexed j ts) = ts.
Proof.
  intros H. revert j. induction ts as [|t ts IH]; intros j; simpl;
    [reflexivity|].
  rewrite IH. unfold Pandas.widen. cbn [fst snd].
  now rewrite column_has_na_clean, andb_false_r by exact H.
Qed.

Lemma filled_clean (df : DataFrame) (v : string) :
  has_na df = false -> Pandas.filled df v = df.
Proof.
  intros H. destruct df as [cols ts rs]. unfold Pandas.filled.
  cbn [columns dtypes rows].
  now rewrite widen_clean, fill_rows_clean by exact H.
Qed.

Lemma fillna_clean (ver : version) (df : DataFrame) (v : string) :
  has_na df = false -> Pandas.fillna ver df (Some v) = inr df.
Proof.
  intros H. rewrite fillna_literal. unfold fills.
  rewrite (float_missing_clean df H), (filled_clean df v H).
  now destruct ver.
Qed.

Lemma handle_missing_data_clean
    (df : DataFrame) (w : World) (rest : list (option string)) :
  has_na df = false ->
  (inputs w = Some "drop" :: rest ->
     exists w', handle_missing_data df w = Done df w' /\ inputs w' = rest) /\
  (forall v, inputs w = Some "fill" :: Some v :: rest ->
     exists w', handle_missing_data df w = Done df w' /\ inputs w' = rest).
Proof.
  intros Hclean. split.
  - intros Hin. rewrite (missing_drop df w rest Hin).
    rewrite (dropna_clean df Hclean). eexists. split; [reflexivity|].
    apply inputs_after.
  - intros v Hin. rewrite (missing_fill df w (Some v) rest Hin).
    rewrite (fillna_clean (pandas w) df v Hclean). eexists. split; [reflexivity|].
    apply inputs_after.
Qed.

(** On a table that holds no missing marker, [drop] removes no row and
    [fill] rewrites no cell: either hands back the table as it is. *)
Theorem missing_noop_on_clean_table
    (df : DataFrame) (w : World) (rest : list (option string))
    (Hclean : has_na df = false) :
  (inputs w = Some "drop" :: rest ->
     exists w', handle_missing_data df w = Done df w' /\ inputs w' = rest) /\
  (forall v, inputs w = Some "fill" :: Some v :: rest ->
     exists w', handle_missing_data df w = Done df w' /\ inputs w' = rest).
Proof.
  split.
  - intros Hin. rewrite (missing_drop df w rest Hin).
    rewrite (dropna_clean df Hclean). eexists. split; [reflexivity|].
    apply inputs_after.
  - intros v Hin. rewrite (missing_fill df w (Some v) rest Hin).
    rewrite (fillna_clean (pandas w) df v Hclean). eexists. split; [reflexivity|].
    apply inputs_after.
Qed.

Lemma missing_noop_on_clean_table_witness :
  exists w',
    handle_missing_data (Pandas.dropna sample_df) (world0 [Some "drop"])
      = Done (Pandas.dropna sample_df) w'.
Proof.
  destruct (missing_noop_on_clean_table (Pandas.dropna sample_df)
              (world0 [Some "drop"]) [] eq_refl) as [H _].
  destruct (H eq_refl) as (w' & Hrun & _). exists w'. exact Hrun.
Defined.

(** Cleaning twice is cleaning once: after a [drop], or after a [fill]
    with a literal that went through (pandas 1 or 2, or no [float64]
    column holding a missing marker), a further [drop] or [fill] hands
    back the same table. *)
Theorem missing_twice_is_once
    (df : DataFrame) (first second : list (option string))
    (w : World) (rest : list (option string))
    (Hfirst : first = [Some "drop"]
              \/ (exists v, first = [Some "fill"; Some v])
                 /\ (pandas w <> P3 \/ Pandas.float_missing df = false))
    (Hsecond : second = [Some "drop"]
               \/ exists v, second = [Some "fill"; Some v])
    (Hin : inputs w = (first ++ second ++ rest)%list) :
  exists df1 w1 w2,
    handle_missing_data df w = Done df1 w1 /\
    has_na df1 = false /\
    handle_missing_data df1 w1 = Done df1 w2 /\
    inputs w2 = rest.
Proof.
  assert (Hone : exists df1 w1,
             handle_missing_data df w = Done df1 w1 /\
             inputs w1 = (second ++ rest)%list /\ has_na df1 = false).
  { destruct Hfirst as [->|[(v & ->) Hver]]; simpl in Hin.
    - rewrite (missing_drop df w _ Hin). do 2 eexists.
      split; [reflexivity|]. split; [apply inputs_after|apply dropna_no_na].
    - rewrite (missing_fill df w (Some v) _ Hin), fillna_literal.
      assert (Hf : fills (pandas w) df = true).
      { unfold fills. destruct Hver as [H|H].
        - destruct (pandas w); try reflexivity. now elim H.
        - rewrite H. now destruct (pandas w). }
      rewrite Hf. do 2 eexists. split; [reflexivity|].
      split; [apply inputs_after|apply filled_no_na]. }
  destruct Hone as (df1 & w1 & H1 & Hin1 & Hclean).
  exists df1, w1. rewrite H1.
  destruct (handle_missing_data_clean df1 w1 rest Hclean) as [Hd Hf].
  destruct Hsecond as [->|(v & ->)]; simpl in Hin1.
  - destruct (Hd Hin1) as (w2 & H2 & Hr). eauto.
  - destruct (Hf v Hin1) as (w2 & H2 & Hr). eauto.
Qed.

Lemma missing_twice_is_once_witness :
  exists df1 w1 w2,
    handle_missing_data sample_df
      (world0 [Some "drop"; Some "fill"; Some "?"]) = Done df1 w1 /\
    handle_missing_data df1 w1 = Done df1 w2 /\
    n_rows df1 = 2%nat.
Proof.
  destruct (missing_twice_is_once sample_df [Some "drop"]
              [Some "fill"; Some "?"]
              (world0 [Some "drop"; Some "fill"; Some "?"]) [])
    as (df1 & w1 & w2 & H1 & _ & H2 & _).
  - now left.
  - right. now exists "?".
  - reflexivity.
  - exists df1, w1, w2. split; [exact H1|]. split; [exact H2|].
    rewrite (missing_drop sample_df
               (world0 [Some "drop"; Some "fill"; Some "?"])
               [Some "fill"; Some "?"] eq_refl) in H1.
    injection H1 as <- _. reflexivity.
Defined.

(** Dismissing the literal dialog of [fill] hands [None] to [fillna]
    and never changes the table, the disk or the remaining answers.
    Pandas 1 and 2 raise, and the failure is logged and shown in an
    error box; pandas 3 returns, and the script reports a fill with
    [None] as a success. *)
Theorem fill_dismissed_leaves_table
    (df : DataFrame) (w : World) (rest : list (option string))
    (Hin : inputs w = Some "fill" :: None :: rest) :
  exists w',
    handle_missing_data df w = Done df w' /\
    inputs w' = rest /\ files w' = files w /\
    (pandas w = P3 ->
       events w' =
         (events w ++ ask_missing :: ask_fill :: fill_success None)%list) /\
    (pandas w <> P3 ->
       exists e,
         events w' = (events w ++ ask_missing :: ask_fill :: fill_error e)%list).
Proof.
  rewrite (missing_fill df w None rest Hin).
  destruct (pandas w) eqn:Hv; cbn [Pandas.fillna];
    eexists; (split; [reflexivity|]);
    rewrite inputs_after, files_after, events_after;
    (split; [reflexivity|]); (split; [reflexivity|]); split;
    try discriminate; try (intros _; reflexivity);
    try (intros _; eexists; reflexivity); intros H; now elim H.
Qed.

Lemma fill_dismissed_leaves_table_witness :
  exists w',
    handle_missing_data sample_df (world0 [Some "fill"; None])
      = Done sample_df w' /\
    events w' = ask_missing :: ask_fill :: fill_success None.
Proof.
  destruct (fill_dismissed_leaves_table sample_df
              (world0 [Some "fill"; None]) [] eq_refl)
    as (w' & Hrun & _ & _ & H3 & _).
  exists w'. split; [exact Hrun|]. exact (H3 eq_refl).
Defined.

(** ** What a handler leaves alone *)

Section Respects.

Variable R : World -> World -> Prop.
Hypothesis R_refl : forall w, R w w.
Hypothesis R_trans : forall w1 w2 w3, R w1 w2 -> R w2 w3 -> R w1 w3.
Hypothesis R_after : forall w rest evs, R w (after w rest evs).

Lemma respects_ret {A} (a : A) : respects R (ret a).
Proof using R_refl. intros w x w' [= _ <-]. apply R_refl. Qed.

Lemma respects_emit e : respects R (emit e).
Proof using R_after.
  intros w x w'. rewrite emit_run. intros [= _ <-]. apply R_after.
Qed.

Lemma respects_logging l msg : respects R (logging l msg).
Proof using R_after.
  intros w x w'. rewrite logging_run. intros [= _ <-]. apply R_after.
Qed.

Lemma respects_messagebox b t msg : respects R (messagebox b t msg).
Proof using R_after.
  intros w x w'. rewrite messagebox_run. intros [= _ <-]. apply R_after.
Qed.

Lemma respects_askstring t p : respects R (askstring t p).
Proof using R_after.
  intros w x w'. destruct (inputs w) as [|a rest] eqn:Hin.
  - now rewrite (askstring_blocked t p w Hin).
  - rewrite (askstring_run t p w a rest Hin). intros [= _ <-].
    apply R_after.
Qed.

Lemma respects_askopenfilename : respects R askopenfilename.
Proof using R_after.
  intros w x w'. destruct (inputs w) as [|a rest] eqn:Hin.
  - now rewrite (askopenfilename_blocked w Hin).
  - rewrite (askopenfilename_run w a rest Hin). intros [= _ <-].
    apply R_after.
Qed.

Lemma respects_asksaveasfilename : respects R asksaveasfilename.
Proof using R_after.
  intros w x w'. destruct (inputs w) as [|a rest] eqn:Hin.
  - now rewrite (asksaveasfilename_blocked w Hin).
  - rewrite (asksaveasfilename_run w a rest Hin). intros [= _ <-].
    apply R_after.
Qed.

Lemma respects_pd_read_csv path : respects R (pd_read_csv path).
Proof using R_refl.
  intros w x w'. rewrite pd_read_csv_run. intros [= _ <-]. apply R_refl.
Qed.

Lemma respects_pandas_version : respects R pandas_version.
Proof using R_refl.
  intros w x w'. rewrite pandas_version_run. intros [= _ <-]. apply R_refl.
Qed.

Lemma respects_library_call c df : respects R (library_call c df).
Proof using R_refl.
  intros w x w'. rewrite library_call_run. intros [= _ <-]. apply R_refl.
Qed.

Lemma respects_out_of_fuel {A} : respects R (@out_of_fuel A).
Proof. intros w x w'. discriminate. Qed.

Lemma respects_bind {A B} (m : M A) (k : A -> M B) :
  respects R m -> (forall a, respects R (k a)) ->
  respects R (x <- m ;; k x).
Proof using R_trans.
  intros Hm Hk w b w'. rewrite bind_run.
  destruct (m w) as [a w1| |] eqn:E; try discriminate.
  intros H. eapply R_trans; [eapply Hm; eauto|eapply Hk; eauto].
Qed.

Ltac respect :=
  repeat first
    [ apply respects_ret | apply respects_emit | apply respects_logging
    | apply respects_messagebox | apply respects_askstring
    | apply respects_askopenfilename | apply respects_asksaveasfilename
    | apply respects_pd_read_csv | apply respects_out_of_fuel
    | apply respects_pandas_version | apply respects_library_call
    | solve [auto]
    | apply respects_bind; [|intros ?]
    | match goal with
      | |- respects _ (if ?b then _ else _) => destruct b
      | |- respects _ (match ?x with _ => _ end) => destruct x
      end ].

Lemma respects_handle_missing_data df :
  respects R (handle_missing_data df).
Proof using R_refl R_trans R_after. unfold handle_missing_data. respect. Qed.

Lemma respects_filter_data df : respects R (filter_data df).
Proof using R_refl R_trans R_after. unfold filter_data. respect. Qed.

Lemma respects_load_csv : respects R load_csv.
Proof using R_refl R_trans R_after. unfold load_csv. respect. Qed.

Lemma respects_display_data_info df : respects R (display_data_info df).
Proof using R_refl R_trans R_after. unfold display_data_info. respect. Qed.

Lemma respects_describe_data df : respects R (describe_data df).
Proof using R_refl R_trans R_after. unfold describe_data. respect. Qed.

Lemma respects_user_plot_selection fuel df :
  respects R (user_plot_selection fuel df).
Proof using R_refl R_trans R_after.
  induction fuel as [|fuel IH]; cbn [user_plot_selection].
  - apply respects_out_of_fuel.
  - unfold plot_simple, plot_pairplot, plot_histogram, plot_heatmap, charted.
    respect.
Qed.

(** Relations that also hold across a write to the disk. *)
Hypothesis R_file : forall w path g, R w (with_file w path g).

Lemma respects_df_to_csv df path : respects R (df_to_csv df path).
Proof using R_refl R_file.
  intros w x w'. destruct (existsb (String.eqb path) (locked w)) eqn:E.
  - rewrite (df_to_csv_locked df path w E). intros [= _ <-]. apply R_refl.
  - rewrite (df_to_csv_run df path w E). intros [= _ <-]. apply R_file.
Qed.

Lemma respects_save_csv df : respects R (save_csv df).
Proof using R_refl R_trans R_after R_file.
  unfold save_csv. pose proof respects_df_to_csv. respect; auto.
Qed.

Lemma respects_main_loop fuel df : respects R (main_loop fuel df).
Proof using R_refl R_trans R_after R_file.
  revert df. induction fuel as [|fuel IH]; intros df; cbn [main_loop].
  - apply respects_out_of_fuel.
  - pose proof respects_display_data_info.
    pose proof respects_describe_data.
    pose proof respects_handle_missing_data.
    pose proof respects_filter_data.
    pose proof respects_save_csv.
    pose proof respects_user_plot_selection.
    respect; auto.
Qed.

Lemma respects_main fuel : respects R (main fuel).
Proof using R_refl R_trans R_after R_file.
  unfold main. pose proof respects_load_csv. pose proof respects_main_loop.
  respect; auto.
Qed.

End Respects.

(** ** The disk *)

Lemma same_disk_refl w : same_disk w w.
Proof. reflexivity. Qed.

Lemma same_disk_trans w1 w2 w3 :
  same_disk w1 w2 -> same_disk w2 w3 -> same_disk w1 w3.
Proof. unfold same_disk. congruence. Qed.

Lemma same_disk_after w rest evs : same_disk w (after w rest evs).
Proof. apply files_after. Qed.

(** Only saving writes: cleaning, filtering, loading, the reports and
    the plot loop hand the disk back exactly as they found it. *)
Theorem only_save_writes (df : DataFrame) (fuel : nat) (w w' : World) :
  (forall df', handle_missing_data df w = Done df' w' -> files w' = files w) /\
  (forall df', filter_data df w = Done df' w' -> files w' = files w) /\
  (forall r, load_csv w = Done r w' -> files w' = files w) /\
  (forall u, display_data_info df w = Done u w' -> files w' = files w) /\
  (forall u, describe_data df w = Done u w' -> files w' = files w) /\
  (forall u, user_plot_selection fuel df w = Done u w' -> files w' = files w).
Proof.
  repeat split; intros x H.
  - exact (respects_handle_missing_data same_disk same_disk_refl
             same_disk_trans same_disk_after df _ _ _ H).
  - exact (respects_filter_data same_disk same_disk_refl
             same_disk_trans same_disk_after df _ _ _ H).
  - exact (respects_load_csv same_disk same_disk_refl
             same_disk_trans same_disk_after _ _ _ H).
  - exact (respects_display_data_info same_disk same_disk_refl
             same_disk_trans same_disk_after df _ _ _ H).
  - exact (respects_describe_data same_disk same_disk_refl
             same_disk_trans same_disk_after df _ _ _ H).
  - exact (respects_user_plot_selection same_disk same_disk_refl
             same_disk_trans same_disk_after fuel df _ _ _ H).
Qed.

Lemma only_save_writes_witness :
  exists w',
    handle_missing_data sample_df (world0 [Some "drop"])
      = Done (Pandas.dropna sample_df) w' /\
    files w' = [("test.csv", sample_file)].
Proof.
  assert (H : exists w',
             handle_missing_data sample_df (world0 [Some "drop"])
             = Done (Pandas.dropna sample_df) w').
  { rewrite (missing_drop sample_df (world0 [Some "drop"]) [] eq_refl).
    eauto. }
  destruct H as (w' & H). exists w'. split; [exact H|].
  destruct (only_save_writes sample_df 0 (world0 [Some "drop"]) w')
    as (Hm & _).
  exact (Hm _ H).
Defined.





Lemma save_csv_cancelled df w a rest :
  inputs w = a :: rest ->
  nonempty (path_of a) = false ->
  save_csv df w =
  Done tt (after w rest [AskedSaveFile; Log INFO "Save operation canceled."]).
Proof.
  intros Hin Hp. unfold save_csv. run. rewrite Hp. run. reflexivity.
Qed.

Lemma save_csv_refused df w a rest :
  inputs w = a :: rest ->
  nonempty (path_of a) = true ->
  existsb (String.eqb (path_of a)) (locked w) = true ->
  save_csv df w =
  Done tt
    (after w rest
       [AskedSaveFile;
        Log ERROR ("Error saving file: " ++
                   "[Errno 13] Permission denied: '" ++ path_of a ++ "'");
        MessageBox BoxError "Error"
          ("Could not save file: " ++
           "[Errno 13] Permission denied: '" ++ path_of a ++ "'")]).
Proof.
  intros Hin Hp Hl. unfold save_csv. run. rewrite Hp. run.
  rewrite df_to_csv_locked by (now rewrite locked_after). run. reflexivity.
Qed.

(** A save that does not go through leaves the disk alone: a dismissed
    dialog is noted in the log, a write that fails is logged as an
    error and shown in an error box; either way the session goes on. *)
Theorem save_csv_without_write
    (df : DataFrame) (w : World) (a : option string)
    (rest : list (option string))
    (Hin : inputs w = a :: rest) :
  (nonempty (path_of a) = false ->
     exists w',
       save_csv df w = Done tt w' /\ inputs w' = rest /\
       files w' = files w /\
       events w' =
         (events w ++ [AskedSaveFile;
                       Log INFO "Save operation canceled."])%list) /\
  (nonempty (path_of a) = true ->
   existsb (String.eqb (path_of a)) (locked w) = true ->
     exists e w',
       save_csv df w = Done tt w' /\ inputs w' = rest /\
       files w' = files w /\
       events w' =
         (events w ++ [AskedSaveFile;
                       Log ERROR ("Error saving file: " ++ e);
                       MessageBox BoxError "Error"
                         ("Could not save file: " ++ e)])%list).
Proof.
  split.
  - intros Hp. rewrite (save_csv_cancelled df w a rest Hin Hp).
    eexists. split; [reflexivity|].
    rewrite inputs_after, files_after, events_after. auto.
  - intros Hp Hl. rewrite (save_csv_refused df w a rest Hin Hp Hl).
    do 2 eexists. split; [reflexivity|].
    rewrite inputs_after, files_after, events_after. auto.
Qed.

Lemma save_csv_without_write_witness :
  exists w',
    save_csv sample_df (world0 [None; Some "exit"]) = Done tt w' /\
    files w' = [("test.csv", sample_file)] /\ inputs w' = [Some "exit"].
Proof.
  destruct (save_csv_without_write sample_df (world0 [None; Some "exit"])
              None [Some "exit"] eq_refl) as [H _].
  destruct (H eq_refl) as (w' & Hrun & Hi & Hf & _).
  exists w'. repeat split; assumption.
Defined.

Lemma disk_kept_refl w : disk_kept w w.
Proof. intros p g H. eauto. Qed.

Lemma disk_kept_trans w1 w2 w3 :
  disk_kept w1 w2 -> disk_kept w2 w3 -> disk_kept w1 w3.
Proof.
  intros H12 H23 p g H. destruct (H12 p g H) as (g' & H'). eauto.
Qed.

Lemma disk_kept_after w rest evs : disk_kept w (after w rest evs).
Proof. intros p g H. rewrite files_after. eauto. Qed.

Lemma disk_kept_with_file w path g : disk_kept w (with_file w path g).
Proof.
  intros p g0 H. rewrite files_with_file. simpl.
  destruct (String.eqb path p); eauto.
Qed.

(** A whole session never removes a file: whatever could be read when
    it started can still be read when it ends. *)
Theorem session_keeps_files
    (fuel : nat) (w w' : World) (r : option DataFrame)
    (Hrun : main fuel w = Done r w') :
  forall p g, lookup p (files w) = Some g ->
    exists g', lookup p (files w') = Some g'.
Proof.
  exact (respects_main disk_kept disk_kept_refl disk_kept_trans
           disk_kept_after disk_kept_with_file fuel _ _ _ Hrun).
Qed.

Lemma session_keeps_files_witness :
  exists r w' g',
    main 5 (world0 [Some "test.csv"; Some "save"; Some "test.csv";
                    Some "exit"]) = Done r w' /\
    lookup "test.csv" (files w') = Some g'.
Proof.
  assert (H : exists r w',
             main 5 (world0 [Some "test.csv"; Some "save"; Some "test.csv";
                             Some "exit"]) = Done r w').
  { vm_compute. eauto. }
  destruct H as (r & w' & H).
  destruct (session_keeps_files 5 _ w' r H "test.csv" sample_file eq_refl)
    as (g' & Hg).
  exists r, w', g'. split; assumption.
Defined.

(** ** The trace of a session *)

Lemma trace_extends_refl w : trace_extends w w.
Proof. exists []. now rewrite app_nil_r. Qed.

Lemma trace_extends_trans w1 w2 w3 :
  trace_extends w1 w2 -> trace_extends w2 w3 -> trace_extends w1 w3.
Proof.
  intros (e1 & H1) (e2 & H2). exists (e1 ++ e2)%list.
  now rewrite H2, H1, app_assoc.
Qed.

Lemma trace_extends_after w rest evs : trace_extends w (after w rest evs).
Proof. exists evs. apply events_after. Qed.

Lemma trace_extends_with_file w path g : trace_extends w (with_file w path g).
Proof. exists []. simpl. now rewrite app_nil_r. Qed.

(** Every run of [main] that returns has logged that the application
    started before anything else and that it ended after everything
    else, whether or not a table was loaded. *)
Theorem main_logs_start_and_end
    (fuel : nat) (w w' : World) (r : option DataFrame)
    (Hrun : main fuel w = Done r w') :
  exists mid,
    events w' =
      (events w ++ Log INFO "Application started." :: mid
                ++ [Log INFO "Application ended."])%list.
Proof.
  unfold main in Hrun. rewrite bind_run, logging_run in Hrun.
  cbv beta iota in Hrun. rewrite bind_run in Hrun.
  destruct (load_csv _) as [d w2| |] eqn:EL; try discriminate.
  destruct (respects_load_csv trace_extends trace_extends_refl
              trace_extends_trans trace_extends_after _ _ _ EL) as (e1 & He1).
  rewrite events_after in He1.
  destruct d as [df0|].
  - rewrite bind_run in Hrun.
    destruct (main_loop fuel df0 w2) as [df' w3| |] eqn:EM; try discriminate.
    destruct (respects_main_loop trace_extends trace_extends_refl
                trace_extends_trans trace_extends_after
                trace_extends_with_file _ _ _ _ _ EM) as (e2 & He2).
    rewrite bind_run, logging_run in Hrun. cbv beta iota in Hrun.
    rewrite ret_run in Hrun. injection Hrun as _ <-.
    exists (e1 ++ e2)%list. rewrite events_after, He2, He1.
    rewrite <- !app_assoc. reflexivity.
  - rewrite bind_run, logging_run in Hrun. cbv beta iota in Hrun.
    rewrite ret_run in Hrun. injection Hrun as _ <-.
    exists e1. rewrite events_after, He1.
    rewrite <- !app_assoc. reflexivity.
Qed.

Lemma main_logs_start_and_end_witness :
  exists r w' mid,
    main 3 (world0 [Some "test.csv"; Some "info"; Some "exit"]) = Done r w' /\
    events w' =
      (Log INFO "Application started." :: mid
       ++ [Log INFO "Application ended."])%list.
Proof.
  assert (H : exists r w',
             main 3 (world0 [Some "test.csv"; Some "info"; Some "exit"])
             = Done r w').
  { vm_compute. eauto. }
  destruct H as (r & w' & H).
  destruct (main_logs_start_and_end 3 _ w' r H) as (mid & Hmid).
  exists r, w', mid. split; [exact H|exact Hmid].
Defined.

(** The table [main] returns tells whether a file was loaded: no table
    comes back exactly when [load_csv] handed none in. *)
Lemma main_result_follows_load (fuel : nat) (w w' : World)
    (r : option DataFrame) :
  main fuel w = Done r w' ->
  exists d w1,
    load_csv (after w (inputs w) [Log INFO "Application started."])
      = Done d w1 /\
    (d = None <-> r = None).
Proof.
  intros Hrun. unfold main in Hrun. rewrite bind_run, logging_run in Hrun.
  cbv beta iota in Hrun. rewrite bind_run in Hrun.
  destruct (load_csv _) as [d w2| |] eqn:EL; try discriminate.
  exists d, w2. split; [reflexivity|].
  destruct d as [df0|].
  - rewrite bind_run in Hrun.
    destruct (main_loop fuel df0 w2) as [df' w3| |]; try discriminate.
    rewrite bind_run, logging_run in Hrun. cbv beta iota in Hrun.
    rewrite ret_run in Hrun. injection Hrun as <- _. split; discriminate.
  - rewrite bind_run, logging_run in Hrun. cbv beta iota in Hrun.
    rewrite ret_run in Hrun. injection Hrun as <- _. tauto.
Qed.

(** ** What a session can do to its table *)

Lemma Subsequence_refl {A} (l : list A) : Subsequence l l.
Proof. induction l; now constructor. Qed.

Lemma Subsequence_trans {A} (l1 l2 l3 : list A) :
  Subsequence l1 l2 -> Subsequence l2 l3 -> Subsequence l1 l3.
Proof.
  intros H12 H23. revert l1 H12.
  induction H23 as [|x l2 l3 H23 IH|x l2 l3 H23 IH]; intros l1 H12.
  - exact H12.
  - apply Sub_skip. now apply IH.
  - inversion H12; subst.
    + apply Sub_skip. now apply IH.
    + apply Sub_keep. now apply IH.
Qed.

Lemma evolves_refl df : evolves df df.
Proof.
  split; [reflexivity|]. split; [apply Subsequence_refl|auto].
Qed.

Lemma evolves_trans df1 df2 df3 :
  evolves df1 df2 -> evolves df2 df3 -> evolves df1 df3.
Proof.
  intros (Hc1 & Hs1 & Hr1) (Hc2 & Hs2 & Hr2).
  split; [congruence|]. split; [eapply Subsequence_trans; eauto|auto].
Qed.

Lemma evolves_rows (df : DataFrame) (rs : list row) :
  Subsequence rs (rows df) -> evolves df (mkDF (columns df) (dtypes df) rs).
Proof.
  intros Hs. split; [reflexivity|]. split.
  - unfold labels. cbn [rows]. now apply Subsequence_map.
  - unfold rectangular, n_cols. cbn [rows columns]. intros Hrect.
    apply Forall_forall. intros r Hr.
    apply (proj1 (Forall_forall _ _) Hrect).
    eapply Subsequence_In; eauto.
Qed.

Lemma evolves_dropna df : evolves df (Pandas.dropna df).
Proof. apply evolves_rows, filter_Subsequence. Qed.

Lemma evolves_fillna ver df v df' :
  Pandas.fillna ver df v = inr df' -> evolves df df'.
Proof.
  intros H. destruct (fillna_inr _ _ _ _ H) as [->|(lit & _ & ->)].
  { split; [reflexivity|]. split; [|auto].
    clear. induction (labels df); now constructor. }
  split; [reflexivity|]. split.
  - unfold labels. cbn [Pandas.filled rows]. rewrite map_map.
    cbn [Pandas.fill_row label].
    clear. induction (rows df); simpl; now constructor.
  - unfold rectangular, n_cols. cbn [Pandas.filled rows columns].
    intros Hrect. apply Forall_map. eapply Forall_impl; [|exact Hrect].
    intros r Hr. cbn [Pandas.fill_row cells]. now rewrite length_map.
Qed.

Lemma returns_ret {A} (P : A -> Prop) (a : A) : P a -> returns P (ret a).
Proof. intros H w x w' [= <- _]. exact H. Qed.

Lemma returns_bind {A B} (P : A -> Prop) (Q : B -> Prop)
    (m : M A) (k : A -> M B) :
  returns P m -> (forall a, P a -> returns Q (k a)) ->
  returns Q (x <- m ;; k x).
Proof.
  intros Hm Hk w b w'. rewrite bind_run.
  destruct (m w) as [a w1| |] eqn:E; try discriminate.
  intros H. eapply Hk; eauto.
Qed.

Lemma returns_any {A} (m : M A) : returns (fun _ => True) m.
Proof. intros w a w' _. exact I. Qed.

Lemma returns_weaken {A} (P Q : A -> Prop) (m : M A) :
  (forall a, P a -> Q a) -> returns P m -> returns Q m.
Proof. intros HPQ Hm w a w' H. apply HPQ. eapply Hm; eauto. Qed.

Lemma returns_out_of_fuel {A} (P : A -> Prop) : returns P (@out_of_fuel A).
Proof. intros w a w'. discriminate. Qed.

Lemma handle_missing_data_evolves df :
  returns (evolves df) (handle_missing_data df).
Proof.
  unfold handle_missing_data.
  eapply returns_bind; [apply returns_any|]. intros action _.
  destruct (is_token action "drop").
  { eapply returns_bind; [apply returns_any|]. intros _ _.
    eapply returns_bind; [apply returns_any|]. intros _ _.
    apply returns_ret, evolves_dropna. }
  destruct (is_token action "fill").
  { eapply returns_bind; [apply returns_any|]. intros v _.
    eapply returns_bind; [apply returns_any|]. intros ver _.
    destruct (Pandas.fillna ver df v) as [e|df'] eqn:E.
    - eapply returns_bind; [apply returns_any|]. intros _ _.
      eapply returns_bind; [apply returns_any|]. intros _ _.
      apply returns_ret, evolves_refl.
    - eapply returns_bind; [apply returns_any|]. intros _ _.
      eapply returns_bind; [apply returns_any|]. intros _ _.
      apply returns_ret. eapply evolves_fillna; eauto. }
  destruct (is_token action "cancel");
    (eapply returns_bind; [apply returns_any|]; intros _ _;
     apply returns_ret, evolves_refl).
Qed.

Lemma filter_data_evolves df : returns (evolves df) (filter_data df).
Proof.
  intros w df' w' H.
  destruct (filter_data_cases df w) as [(w1 & H1)|(df1 & w1 & H1 & Hc & Hs)];
    [congruence|].
  rewrite H1 in H. injection H as <- _.
  destruct df1 as [cols rs]. cbn [columns rows] in *. subst cols.
  now apply evolves_rows.
Qed.

Lemma main_loop_evolves fuel df : returns (evolves df) (main_loop fuel df).
Proof.
  revert df. induction fuel as [|fuel IH]; intros df; cbn [main_loop].
  - apply returns_out_of_fuel.
  - eapply returns_bind; [apply returns_any|]. intros a _.
    repeat match goal with
           | |- returns _ (if ?b then _ else _) => destruct b
           end.
    + eapply returns_bind; [apply returns_any|]. intros _ _. apply IH.
    + eapply returns_bind; [apply returns_any|]. intros _ _. apply IH.
    + eapply returns_bind; [apply handle_missing_data_evolves|].
      intros df' Hd. eapply returns_weaken; [|apply IH].
      intros df''. now apply evolves_trans.
    + eapply returns_bind; [apply filter_data_evolves|].
      intros df' Hd. eapply returns_weaken; [|apply IH].
      intros df''. now apply evolves_trans.
    + eapply returns_bind; [apply returns_any|]. intros _ _. apply IH.
    + eapply returns_bind; [apply returns_any|]. intros _ _. apply IH.
    + apply returns_ret, evolves_refl.
    + eapply returns_bind; [apply returns_any|]. intros _ _. apply IH.
Qed.

(** Whatever the user does in a session, the table it ends with has the
    column names of the table it started with, its rows carry a
    subsequence of the original index labels (no row is added, none
    reordered), and it still has one cell per column in every row if it
    had at the start. *)
Theorem session_never_adds_rows_or_columns
    (fuel : nat) (df df' : DataFrame) (w w' : World)
    (Hrun : main_loop fuel df w = Done df' w') :
  columns df' = columns df /\
  Subsequence (labels df') (labels df) /\
  (n_rows df' <= n_rows df)%nat /\
  (rectangular df -> rectangular df').
Proof.
  destruct (main_loop_evolves fuel df _ _ _ Hrun) as (Hc & Hs & Hr).
  split; [exact Hc|]. split; [exact Hs|]. split; [|exact Hr].
  apply Subsequence_length in Hs. unfold labels in Hs.
  rewrite !length_map in Hs. exact Hs.
Qed.

Lemma session_never_adds_rows_or_columns_witness :
  exists df' w',
    main_loop 9 sample_df
      (world0 [Some "missing"; Some "fill"; Some "-"; Some "filter";
               Some "city"; Some "Oslo"; Some "exit"]) = Done df' w' /\
    columns df' = ["name"; "age"; "city"] /\
    Subsequence (labels df') [0; 1; 2; 3]%nat.
Proof.
  assert (H : exists df' w',
             main_loop 9 sample_df
               (world0 [Some "missing"; Some "fill"; Some "-"; Some "filter";
                        Some "city"; Some "Oslo"; Some "exit"])
             = Done df' w').
  { vm_compute. eauto. }
  destruct H as (df' & w' & H).
  destruct (session_never_adds_rows_or_columns 9 sample_df df' _ w' H)
    as (Hc & Hs & _).
  exists df', w'. split; [exact H|]. split; [exact Hc|exact Hs].
Defined.

(** ** The plot loop, answer by answer *)

Lemma chart_handler_run (c : chart) (df : DataFrame) (w : World)
    (rest : list (option string)) (evs : list event) :
  (r <- library_call (CallPlot c) df ;; charted c df (chart_name c) r)
    (after w rest evs) =
  Done tt (after w rest (evs ++ chart_events w c df)).
Proof.
  unfold charted, chart_events. run.
  destruct (raises w (CallPlot c) df); run; reflexivity.
Qed.

Lemma user_plot_selection_step fuel df a w rest :
  inputs w = a :: rest ->
  is_token a "exit" = false ->
  user_plot_selection (S fuel) df w =
  user_plot_selection fuel df (after w rest (plot_trace w df [a])).
Proof.
  intros Hin Hexit. cbn [user_plot_selection]. run.
  unfold plot_trace, chart_of. cbn [flat_map app].
  destruct (is_token a "simple") eqn:E1.
  { unfold plot_simple. rewrite bind_run.
    rewrite (chart_handler_run Simple). cbv beta iota.
    now rewrite app_nil_r. }
  destruct (is_token a "pairplot") eqn:E2.
  { unfold plot_pairplot. rewrite bind_run.
    rewrite (chart_handler_run Pairplot). cbv beta iota.
    now rewrite app_nil_r. }
  destruct (is_token a "histogram") eqn:E3.
  { unfold plot_histogram. rewrite bind_run.
    rewrite (chart_handler_run Histogram). cbv beta iota.
    now rewrite app_nil_r. }
  destruct (is_token a "heatmap") eqn:E4.
  { unfold plot_heatmap. rewrite bind_run.
    rewrite (chart_handler_run Heatmap). cbv beta iota.
    now rewrite app_nil_r. }
  rewrite Hexit. run. reflexivity.
Qed.

Lemma user_plot_selection_exit fuel df w rest :
  inputs w = Some "exit" :: rest ->
  user_plot_selection (S fuel) df w = Done tt (after w rest [ask_plot]).
Proof. intros Hin. cbn [user_plot_selection]. run. reflexivity. Qed.

Lemma plot_trace_after w rest evs df answers :
  plot_trace (after w rest evs) df answers = plot_trace w df answers.
Proof.
  unfold plot_trace, chart_events. now rewrite raises_after.
Qed.

(** The plot loop handles the answers one by one up to the first
    [exit].  Each plot token calls its chart on the table handed in:
    when the library returns the chart is shown, when it raises the
    failure is logged and shown in an error box.  Anything else gets
    the warning box.  On [exit] the loop returns with the later answers
    unread and the disk as it was. *)
Theorem user_plot_selection_trace
    (df : DataFrame) (pre rest : list (option string)) (fuel : nat) (w : World)
    (Hin : inputs w = (pre ++ Some "exit" :: rest)%list)
    (Hpre : ~ In (Some "exit") pre)
    (Hfuel : (List.length pre < fuel)%nat) :
  user_plot_selection fuel df w =
  Done tt (after w rest (plot_trace w df pre ++ [ask_plot])).
Proof.
  revert fuel w Hin Hfuel.
  induction pre as [|a pre IH]; intros fuel w Hin Hfuel;
    destruct fuel as [|fuel]; simpl in Hfuel; try lia.
  - simpl in Hin. now apply user_plot_selection_exit.
  - simpl in Hin.
    assert (Ha : is_token a "exit" = false).
    { apply is_token_false. intros ->. apply Hpre. now left. }
    rewrite (user_plot_selection_step fuel df a w _ Hin Ha).
    rewrite (IH (fun H => Hpre (or_intror H)) fuel _ (inputs_after _ _ _))
      by lia.
    rewrite after_after, plot_trace_after.
    f_equal. f_equal. rewrite app_assoc. f_equal.
    unfold plot_trace. cbn [flat_map]. now rewrite app_nil_r.
Qed.

Lemma user_plot_selection_trace_witness :
  exists w',
    user_plot_selection 5 sample_df
      (world0 [Some "simple"; Some "heatmap"; Some "pie"; None; Some "exit";
               Some "info"]) = Done tt w' /\
    inputs w' = [Some "info"] /\
    events w' =
      [ask_plot; Show Simple sample_df;
       ask_plot;
       Log ERROR "Error plotting heatmap: could not convert string to float";
       MessageBox BoxError "Error"
         "Could not plot heatmap: could not convert string to float";
       ask_plot; warn_plot; ask_plot; warn_plot; ask_plot].
Proof.
  eexists. split.
  - apply (user_plot_selection_trace sample_df
             [Some "simple"; Some "heatmap"; Some "pie"; None]
             [Some "info"] 5
             (world0 [Some "simple"; Some "heatmap"; Some "pie"; None;
                      Some "exit"; Some "info"]) eq_refl).
    + simpl. intuition discriminate.
    + simpl. lia.
  - split; [apply inputs_after|]. rewrite events_after. reflexivity.
Defined.

(** ** The iteration budget *)

(** Each turn of either loop reads at least one answer, so a budget
    larger than the number of answers is never used up: the session
    returns or is left waiting at a dialog for an answer. *)
Theorem main_returns_or_waits (fuel : nat) (w : World)
    (Hfuel : (List.length (inputs w) < fuel)%nat) :
  (exists r w', main fuel w = Done r w') \/
  (exists w', main fuel w = Blocked w').
Proof.
  pose proof (main_total fuel w Hfuel) as H.
  destruct (main fuel w) as [r w'|w'|]; [left|right|congruence]; eauto.
Qed.

Lemma main_returns_or_waits_witness :
  (exists r w', main 3 (world0 [Some "test.csv"; Some "plot"]) = Done r w') \/
  (exists w', main 3 (world0 [Some "test.csv"; Some "plot"]) = Blocked w').
Proof.
  apply (main_returns_or_waits 3 (world0 [Some "test.csv"; Some "plot"])).
  simpl. lia.
Defined.

(** ** Loading a file *)





(** ** Writing a frame and reading it back *)









Lemma reads_as_convert (ver : version) (k : Csv.kind) (s : string) :
  Csv.is_na ver s = false -> reads_as s (Csv.convert ver k s) = true.
Proof.
  intros Hna. unfold Csv.convert. rewrite Hna.
  destruct k;
    try (destruct (Csv.parse_num s) as [z|] eqn:E; simpl;
         [rewrite E; apply Z.eqb_refl|apply String.eqb_refl]);
    try (destruct (Csv.parse_bool s) as [b|] eqn:E; simpl;
         [rewrite E; apply Bool.eqb_reflx|apply String.eqb_refl]).
  simpl. apply String.eqb_refl.
Qed.

Lemma convert_reads (ver : version) (k : Csv.kind) (s : string) :
  if Csv.is_na ver s then Csv.convert ver k s = CMissing
  else reads_as s (Csv.convert ver k s) = true.
Proof.
  destruct (Csv.is_na ver s) eqn:E.
  - unfold Csv.convert. now rewrite E.
  - now apply reads_as_convert.
Qed.

Lemma is_na_empty (ver : version) : Csv.is_na ver "" = true.
Proof. now destruct ver. Qed.







Lemma dedup_names_fresh (seen : list string) (j : nat) (names : list string) :
  NoDup names -> ~ In "" names ->
  (forall n, In n names -> ~ In n seen) ->
  Csv.dedup_names seen j names = names.
Proof.
  revert seen j. induction names as [|n names IH]; intros seen j Hnd He Hs;
    simpl; [reflexivity|].
  inversion Hnd as [|? ? Hn Hnd']; subst.
  destruct (String.eqb_spec n "") as [->|Hne].
  { elim He. now left. }
  rewrite (proj1 (count_occ_not_In string_dec seen n)) by (apply Hs; now left).
  simpl. f_equal. apply IH; [assumption| |].
  - intros H. apply He. now right.
  - intros m Hm [<-|Hin]; [contradiction|].
    apply (Hs m); [now right|assumption].
Qed.

Lemma plain_names_nonempty (names : list string) :
  forallb plain_name names = true -> ~ In "" names.
Proof.
  intros H Hin. apply (proj1 (forallb_forall _ _) H) in Hin. discriminate.
Qed.

(** *** No written cell makes a blank line *)

















(** ** Loading a well-formed file *)

Lemma number_rows_labels ver i ks recs :
  map label (Csv.number_rows ver i ks recs) = seq i (List.length recs).
Proof.
  revert i. induction recs as [|rec recs IH]; intros i; simpl;
    [reflexivity|]. now rewrite IH.
Qed.

Lemma pad_length n rec :
  (List.length rec <= n)%nat -> List.length (Csv.pad n rec) = n.
Proof.
  intros H. unfold Csv.pad. rewrite length_app, repeat_length. lia.
Qed.

Lemma pad_nth n rec j : nth j (Csv.pad n rec) "" = nth j rec "".
Proof.
  unfold Csv.pad. destruct (Nat.lt_ge_cases j (List.length rec)) as [Hlt|Hge].
  - now rewrite app_nth1.
  - rewrite app_nth2 by assumption. rewrite (nth_overflow rec) by assumption.
    apply nth_repeat.
Qed.

Lemma converted_nth ver ks rec j :
  (List.length rec <= List.length ks)%nat ->
  nth j (map (fun p => Csv.convert ver (fst p) (snd p))
           (combine ks (Csv.pad (List.length ks) rec))) CMissing =
  Csv.convert ver (nth j ks Csv.KText) (nth j rec "").
Proof.
  intros Hlen.
  set (f := fun p : Csv.kind * string => Csv.convert ver (fst p) (snd p)).
  assert (Hd : CMissing = f (Csv.KText, ""))
    by (unfold f; cbn [fst snd]; unfold Csv.convert;
        now rewrite is_na_empty).
  rewrite Hd at 1. rewrite (map_nth f).
  rewrite combine_nth by (now rewrite pad_length).
  unfold f. cbn [fst snd]. now rewrite pad_nth.
Qed.

Lemma number_rows_cells ver i ks recs :
  Forall (fun rec => (List.length rec <= List.length ks)%nat) recs ->
  Forall2
    (fun rec r =>
       List.length (cells r) = List.length ks /\
       forall j,
         if Csv.is_na ver (nth j rec "")
         then nth j (cells r) CMissing = CMissing
         else reads_as (nth j rec "") (nth j (cells r) CMissing) = true)
    recs (Csv.number_rows ver i ks recs).
Proof.
  intros H. revert i. induction H as [|rec recs Hrec _ IH]; intros i; simpl;
    constructor; [|apply IH].
  cbn [cells]. split.
  - rewrite length_map, length_combine, pad_length by assumption. lia.
  - intros j. rewrite converted_nth by assumption. apply convert_reads.
Qed.

Lemma Forall2_right {A B} (P : A -> B -> Prop) (Q : B -> Prop) l l' :
  (forall a b, P a b -> Q b) -> Forall2 P l l' -> Forall Q l'.
Proof. intros H. induction 1; constructor; eauto. Qed.

(** What [read_csv] makes of a well-formed file: the header as it is,
    and the records converted column by column. *)
Lemma read_csv_well_formed ver header recs :
  well_formed ver header recs ->
  Csv.read_csv ver (header :: recs) =
  inr (mkDF header
         (map Csv.dtype_of
            (map (fun j => Csv.infer ver (Csv.column_fields j recs))
               (seq 0 (List.length header))))
         (Csv.number_rows ver 0
            (map (fun j => Csv.infer ver (Csv.column_fields j recs))
               (seq 0 (List.length header)))
            recs)).
Proof.
  intros (Hblank & Hnd & Hplain & Hrecs).
  unfold Csv.read_csv. cbn [filter]. rewrite Hblank. cbn [negb].
  rewrite (filter_keep_all _ recs).
  2:{ eapply Forall_impl; [|exact Hrecs]. intros rec (Hrec & _).
      cbv beta. now rewrite Hrec. }
  rewrite (existsb_none _ recs).
  2:{ eapply Forall_impl; [|exact Hrecs]. intros rec (_ & Hrec & _).
      now apply Nat.ltb_ge. }
  rewrite dedup_names_fresh by auto using plain_names_nonempty.
  reflexivity.
Qed.

(** Loading a well-formed file (a header that is not a blank line, with
    distinct plain names; records that are not blank lines, no longer
    than the header, whose fields are missing-value spellings, integer
    literals, floats written [z.0], the words true and false, or texts
    starting with a letter that no number parser takes): the table has
    the header as its column names, one row per record, labelled 0, 1,
    2, ... in file order, one cell per column in every row; a field
    spelled like a missing value, or absent because the record is
    short, is read as missing, any other field as its text or as the
    number or boolean it spells. *)
Theorem load_csv_well_formed
    (w : World) (path : string) (rest : list (option string))
    (header : list string) (recs : list (list string))
    (Hin : inputs w = Some path :: rest)
    (Hpath : nonempty path = true)
    (Hfile : lookup path (files w) = Some (header :: recs))
    (Hwf : well_formed (pandas w) header recs) :
  exists df w',
    load_csv w = Done (Some df) w' /\
    inputs w' = rest /\
    columns df = header /\
    labels df = seq 0 (List.length recs) /\
    rectangular df /\
    Forall2
      (fun rec r =>
         forall j,
           if Csv.is_na (pandas w) (nth j rec "")
           then nth j (cells r) CMissing = CMissing
           else reads_as (nth j rec "") (nth j (cells r) CMissing) = true)
      recs (rows df).
Proof.
  pose proof (read_csv_well_formed _ _ _ Hwf) as Hread.
  set (ks := map (fun j => Csv.infer (pandas w) (Csv.column_fields j recs))
               (seq 0 (List.length header))) in *.
  assert (Hks : List.length ks = List.length header)
    by (unfold ks; now rewrite length_map, length_seq).
  destruct Hwf as (_ & _ & _ & Hrecs).
  assert (Hle : Forall (fun rec => (List.length rec <= List.length ks)%nat)
                  recs).
  { eapply Forall_impl; [|exact Hrecs]. intros rec (_ & Hrec & _). lia. }
  pose proof (number_rows_cells (pandas w) 0 ks recs Hle) as Hcells.
  do 2 eexists.
  rewrite (load_csv_loaded w (Some path) rest _ Hin Hpath)
    by (cbn [path_of]; unfold disk_read; rewrite Hfile; exact Hread).
  split; [reflexivity|]. split; [apply inputs_after|].
  split; [reflexivity|]. split; [apply number_rows_labels|]. split.
  - unfold rectangular, n_cols. cbn [rows columns]. rewrite <- Hks.
    eapply Forall2_right; [|exact Hcells]. now intros rec r [Hr _].
  - cbn [rows]. eapply Forall2_impl; [|exact Hcells]. now intros rec r [_ Hr].
Qed.

Lemma sample_file_well_formed :
  well_formed P3 ["name"; "age"; "city"]
    [["ann"; "31"; "Oslo"]; ["bob"; ""; "Rome"];
     ["cy"; "27"; ""]; ["dee"; "44"; "Oslo"]].
Proof.
  split; [reflexivity|]. split.
  - repeat constructor; simpl; intuition discriminate.
  - split; [reflexivity|].
    repeat constructor; vm_compute; intros H; discriminate H.
Qed.

Lemma load_csv_well_formed_witness :
  exists df w',
    load_csv (world0 [Some "test.csv"]) = Done (Some df) w' /\
    columns df = ["name"; "age"; "city"] /\
    labels df = [0; 1; 2; 3]%nat /\
    rectangular df.
Proof.
  destruct (load_csv_well_formed (world0 [Some "test.csv"]) "test.csv" []
              ["name"; "age"; "city"]
              [["ann"; "31"; "Oslo"]; ["bob"; ""; "Rome"];
               ["cy"; "27"; ""]; ["dee"; "44"; "Oslo"]]
              eq_refl eq_refl eq_refl sample_file_well_formed)
    as (df & w' & Hrun & _ & Hc & Hl & Hr & _).
  exists df, w'. repeat split; assumption.
Defined.

(** ** Saving a loaded table and loading it again *)










































